(** * json_summarizer: record normalisation and comment aggregation

    A shallow embedding of [json_summarizer.py]: the values produced by
    [json.load], the exceptions the string, dictionary and iteration
    primitives raise, and the program logic
    ([process_selected_component], [normalize_field_name],
    [format_comments], and of [main] the component index, the filter, the
    table and the page it puts together).

    Modelling conventions.
    - A Python [str] is a [string], one [ascii] per character: the
      characters are the code points U+0000 to U+00FF, each standing for
      itself. On these [str.lower] works character by character and stays
      within the range, and [<] on strings is the lexicographic order on
      code points. [str.title] can leave the range, so a title-cased label is
      a list of code points.
    - A [dict] is an association list in insertion order; lookups take the
      first binding of a key.
    - A raised exception is the [Raise] branch of [result]; calls that
      reach the outside world (the chat-completion client, [st.error]) are
      recorded, in order, in a trace. *)

From Stdlib Require Import Ascii String DecimalString.
From Stdlib Require QArith.
From stdpp Require Import base list strings gmap sorting.

(** ** Strings *)

Module Str.

Definition nl_char : ascii := ascii_of_nat 10.
Definition space_char : ascii := ascii_of_nat 32.

(** The one-character string that holds a newline. *)
Definition nl : string := String nl_char EmptyString.

(** The characters [str.lower] changes: [A-Z], and [U+00C0] to [U+00DE]
    without the multiplication sign [U+00D7]. Each has its lower-case form 32
    places further on. *)
Definition is_upper (c : ascii) : bool :=
  let n := nat_of_ascii c in
  ((65 <=? n)%nat && (n <=? 90)%nat)
  || ((192 <=? n)%nat && (n <=? 222)%nat && negb (n =? 215)%nat).

Definition lower_char (c : ascii) : ascii :=
  if is_upper c then ascii_of_nat (nat_of_ascii c + 32) else c.

(** [s.lower()] *)
Fixpoint lower (s : string) : string :=
  match s with
  | EmptyString => EmptyString
  | String c s' => String (lower_char c) (lower s')
  end.

(** [s.replace(old, new)] for one-character [old] and [new]. *)
Fixpoint replace (old new : ascii) (s : string) : string :=
  match s with
  | EmptyString => EmptyString
  | String c s' =>
      String (if Ascii.eqb c old then new else c) (replace old new s')
  end.

(** [sep.join(parts)] *)
Fixpoint join (sep : string) (parts : list string) : string :=
  match parts with
  | [] => EmptyString
  | [p] => p
  | p :: ps => p +:+ sep +:+ join sep ps
  end.

(** [s[:n]] *)
Definition prefix (n : nat) (s : string) : string := String.substring 0 n s.

(** [str(i)] for a non-negative integer. *)
Definition of_nat (i : nat) : string := NilEmpty.string_of_uint (Nat.to_uint i).

(** The character [c] occurs in [s]. *)
Fixpoint mem (c : ascii) (s : string) : bool :=
  match s with
  | EmptyString => false
  | String d s' => Ascii.eqb d c || mem c s'
  end.

(** [s1 < s2] and [s1 <= s2] on [str]. *)
Definition lt (s1 s2 : string) : Prop := String.compare s1 s2 = Lt.
Definition le (s1 s2 : string) : Prop := String.leb s1 s2 = true.

#[global] Instance le_dec : RelDecision le :=
  fun s1 s2 => decide (String.leb s1 s2 = true).
#[global] Instance lt_dec : RelDecision lt :=
  fun s1 s2 => decide (String.compare s1 s2 = Lt).

End Str.

(** ** Values and exceptions *)

Set Warnings "-register-all".

(** What [json.load] returns. [PyFloat] carries the 64-bit pattern of the
    number; no operation of the program looks inside it. *)
Inductive pyval : Type :=
  | PyNone
  | PyBool (b : bool)
  | PyInt (z : Z)
  | PyFloat (bits : Z)
  | PyStr (s : string)
  | PyList (items : list pyval)
  | PyDict (entries : list (string * pyval)).

Abbreviation dict := (list (string * pyval)).

(** Instances of [Exception] the program can meet. [CapabilityError] stands
    for whatever the chat-completion client raises; [UnicodeDecodeError] and
    [RecursionError] are what [json.load] raises on a file that is not text
    or is nested too deep. *)
Inductive exn : Type :=
  | KeyError (key : string)
  | TypeError
  | AttributeError (attr : string)
  | CapabilityError (msg : string)
  | UnicodeDecodeError
  | RecursionError.

Inductive result (A : Type) : Type :=
  | Ok (a : A)
  | Raise (e : exn).
Arguments Ok {A} a.
Arguments Raise {A} e.

Definition rbind {A B} (r : result A) (k : A -> result B) : result B :=
  match r with
  | Ok a => k a
  | Raise e => Raise e
  end.

Declare Scope result_scope.
Delimit Scope result_scope with result.
Notation "x <- r ;; k" := (rbind r (fun x => k))
  (at level 100, r at next level, right associativity) : result_scope.
Local Open Scope result_scope.

Definition raises {A} (r : result A) : Prop :=
  match r with Ok _ => False | Raise _ => True end.

(** ** Primitive operations *)

Module Py.

(** [d[k]] on the entries of a dict, [None] when the key is missing. *)
Fixpoint lookup (k : string) (d : dict) : option pyval :=
  match d with
  | [] => None
  | (k', v) :: d' => if String.eqb k' k then Some v else lookup k d'
  end.

(** [k in d] *)
Definition contains (k : string) (d : dict) : bool :=
  match lookup k d with Some _ => true | None => false end.

(** [list(d)]: the keys in insertion order. *)
Definition keys (d : dict) : list string := map fst d.

(** [v[k]] for a string [k]. Lists and strings want integer indices, the
    other values are not subscriptable. *)
Definition getitem (v : pyval) (k : string) : result pyval :=
  match v with
  | PyDict d =>
      match lookup k d with
      | Some x => Ok x
      | None => Raise (KeyError k)
      end
  | _ => Raise TypeError
  end.

(** [v.get(k, default)] *)
Definition get (v : pyval) (k : string) (default : pyval) : result pyval :=
  match v with
  | PyDict d =>
      match lookup k d with
      | Some x => Ok x
      | None => Ok default
      end
  | _ => Raise (AttributeError "get")
  end.

(** [v.lower()] *)
Definition lower (v : pyval) : result string :=
  match v with
  | PyStr s => Ok (Str.lower s)
  | _ => Raise (AttributeError "lower")
  end.

(** [v.replace(old, new)] for one-character arguments. *)
Definition replace (v : pyval) (old new : ascii) : result string :=
  match v with
  | PyStr s => Ok (Str.replace old new s)
  | _ => Raise (AttributeError "replace")
  end.

Fixpoint chars (s : string) : list pyval :=
  match s with
  | EmptyString => []
  | String c s' => PyStr (String c EmptyString) :: chars s'
  end.

(** The elements [for x in v] runs through. *)
Definition iter (v : pyval) : result (list pyval) :=
  match v with
  | PyList l => Ok l
  | PyDict d => Ok (map PyStr (keys d))
  | PyStr s => Ok (chars s)
  | _ => Raise TypeError
  end.

(** The strings of a list handed to [str.join]; anything else in it is a
    [TypeError]. *)
Fixpoint strings (l : list pyval) : result (list string) :=
  match l with
  | [] => Ok []
  | PyStr s :: l' => ss <- strings l' ;; Ok (s :: ss)
  | _ :: _ => Raise TypeError
  end.

(** [sep.join(l)] *)
Definition join (sep : string) (l : list pyval) : result string :=
  ss <- strings l ;; Ok (Str.join sep ss).

End Py.

(** ** The outside world *)

(** The arguments of [client.chat.completions.create]. *)
Record chat_request : Type := {
  model : string;
  messages : list (string * string);   (* role, content *)
  temperature : QArith_base.Q;
  max_tokens : Z
}.

(** Calls that leave the program, in the order they happen. *)
Inductive event : Type :=
  | ChatCompletion (req : chat_request)
  | StError (prefix : string) (e : exn).   (* st.error(f"{prefix}{str(e)}") *)

Definition trace := list event.

(** A computation that may raise and that appends to the trace. *)
Definition io (A : Type) : Type := trace -> result A * trace.

Definition io_ret {A} (a : A) : io A := fun tr => (Ok a, tr).
Definition io_lift {A} (r : result A) : io A := fun tr => (r, tr).
Definition io_emit (ev : event) : io unit := fun tr => (Ok tt, tr ++ [ev]).

Definition io_bind {A B} (m : io A) (k : A -> io B) : io B :=
  fun tr =>
    match m tr with
    | (Ok a, tr') => k a tr'
    | (Raise e, tr') => (Raise e, tr')
    end.

(** [try: body except Exception as e: handler(e)] *)
Definition try_except {A} (body : io A) (handler : exn -> io A) : io A :=
  fun tr =>
    match body tr with
    | (Ok a, tr') => (Ok a, tr')
    | (Raise e, tr') => handler e tr'
    end.

Declare Scope io_scope.
Delimit Scope io_scope with io.
Notation "x <-- m ;; k" := (io_bind m (fun x => k))
  (at level 100, m at next level, right associativity) : io_scope.
Notation "m ;;; k" := (io_bind m (fun _ => k))
  (at level 100, right associativity) : io_scope.
Local Open Scope io_scope.

(** ** The program *)

Section Program.

(** The chat-completion service behind [client]: for a request, either
    the text of the first choice ([completion.choices[0].message.content])
    or the exception the call ends in. *)
Variable chat_completions_create : chat_request -> result pyval.

Definition summarize_request (text : string) : chat_request :=
  let prompt :=
    "Please provide a concise summary of the following text in steps:"
      +:+ Str.nl +:+ Str.nl +:+ text in
  {| model := "llama-3.3-70b-versatile";
     messages :=
       [("system", "You are a helpful assistant that provides concise summaries.");
        ("user", prompt)];
     temperature := QArith_base.Qmake 1 2;
     max_tokens := 150 |}.

Definition summarize_with_llm (text : string) : io pyval :=
  let req := summarize_request text in
  io_emit (ChatCompletion req) ;;;
  io_lift (chat_completions_create req).

(** The inner loop of [process_selected_component]: one [append] per
    entry of a record's comment list. *)
Fixpoint append_comments (comment_objs : list pyval)
    (aggregated_comments : list pyval) : result (list pyval) :=
  match comment_objs with
  | [] => Ok aggregated_comments
  | comment_obj :: rest =>
      text <- Py.get comment_obj "comment" (PyStr "") ;;
      append_comments rest (aggregated_comments ++ [text])
  end.

(** The body of the outer loop, for one element of [json_data]. *)
Definition aggregate_item (item : pyval) (selected_component : string)
    (aggregated_comments : list pyval) : result (list pyval) :=
  component <- Py.getitem item "Component" ;;
  name <- Py.lower component ;;
  if String.eqb name (Str.lower selected_component) then
    comments <- Py.get item "Comment" (PyList []) ;;
    comment_objs <- Py.iter comments ;;
    append_comments comment_objs aggregated_comments
  else Ok aggregated_comments.

(** The outer loop. *)
Fixpoint aggregate_items (items : list pyval) (selected_component : string)
    (aggregated_comments : list pyval) : result (list pyval) :=
  match items with
  | [] => Ok aggregated_comments
  | item :: rest =>
      aggregated_comments' <-
        aggregate_item item selected_component aggregated_comments ;;
      aggregate_items rest selected_component aggregated_comments'
  end.

(** Lines 41-45: the value of [aggregated_comments] after the loops. *)
Definition aggregated_comments (json_data : pyval) (selected_component : string)
    : result (list pyval) :=
  items <- Py.iter json_data ;;
  aggregate_items items selected_component [].

(** The body of the [try] block. *)
Definition process_body (json_data : pyval) (selected_component : string)
    (additional_text : string) : io pyval :=
  aggregated <-- io_lift (aggregated_comments json_data selected_component) ;;
  match aggregated with
  | _ :: _ =>
      comments_text <-- io_lift (Py.join Str.nl aggregated) ;;
      let combined_text := (comments_text +:+ (Str.nl +:+ Str.nl)) +:+ additional_text in
      component_analysis <-- summarize_with_llm combined_text ;;
      io_ret (PyDict [("Component", PyStr selected_component);
                      ("Analysis", component_analysis)])
  | [] => io_ret PyNone
  end.

Definition process_selected_component (json_data : pyval)
    (selected_component : string) (additional_text : string) : io pyval :=
  try_except (process_body json_data selected_component additional_text)
    (fun e => io_emit (StError "Error processing component: " e) ;;;
              io_ret PyNone).

End Program.

(** [normalize_field_name(field_name, data)] for a dict [data]. (Every
    record [main] hands to it has passed the component filter, so it is a
    dict: see [filter_items_dict].) *)
Fixpoint scan_keys (keys : list string) (field_name : string) (data : dict)
    : result pyval :=
  match keys with
  | [] => Ok (PyStr "N/A")
  | key :: rest =>
      if String.eqb (Str.lower key) (Str.lower field_name)
      then Py.getitem (PyDict data) key
      else scan_keys rest field_name data
  end.

Definition normalize_field_name (field_name : string) (data : dict)
    : result pyval :=
  if Py.contains field_name data then Py.getitem (PyDict data) field_name
  else scan_keys (Py.keys data) field_name data.

(** Lines 82-86: the line [format_comments] appends for the comment [c] met
    at count [i]. *)
Definition format_line (i : nat) (c : pyval) : result string :=
  text <- Py.getitem c "comment" ;;
  comment_text <- Py.replace text Str.nl_char Str.space_char ;;
  let comment_text :=
    if (100 <? String.length comment_text)%nat
    then Str.prefix 97 comment_text +:+ "..."
    else comment_text in
  Ok (Str.of_nat i +:+ ". " +:+ comment_text).

Fixpoint format_loop (i : nat) (cs : list pyval) (formatted_comments : list string)
    : result (list string) :=
  match cs with
  | [] => Ok formatted_comments
  | c :: rest =>
      line <- format_line i c ;;
      format_loop (S i) rest (formatted_comments ++ [line])
  end.

Definition format_comments (comments : pyval) : result string :=
  cs <- Py.iter comments ;;
  formatted_comments <- format_loop 1 cs [] ;;
  Ok (Str.join Str.nl formatted_comments).

(** Line 102 of [main]: the lower-cased component of every element, as a
    set, sorted. *)
Fixpoint component_names (items : list pyval) : result (list string) :=
  match items with
  | [] => Ok []
  | item :: rest =>
      component <- Py.getitem item "Component" ;;
      name <- Py.lower component ;;
      names <- component_names rest ;;
      Ok (name :: names)
  end.

Definition components (json_data : pyval) : result (list string) :=
  items <- Py.iter json_data ;;
  names <- component_names items ;;
  Ok (merge_sort Str.le (elements (list_to_set names : gset string))).

(** Line 110 of [main]: the comprehension behind [filtered_data]. *)
Fixpoint filter_items (items : list pyval) (selected_component : string)
    : result (list pyval) :=
  match items with
  | [] => Ok []
  | item :: rest =>
      component <- Py.getitem item "Component" ;;
      name <- Py.lower component ;;
      kept <- filter_items rest selected_component ;;
      Ok (if String.eqb name (Str.lower selected_component)
          then item :: kept else kept)
  end.

Definition filtered_data (json_data : pyval) (selected_component : string)
    : result (list pyval) :=
  items <- Py.iter json_data ;;
  filter_items items selected_component.

(** ** The table and the page of [main] *)

(** The other built-ins [main] applies to values. *)
Module Builtin.

(** [len(v)] *)
Definition len (v : pyval) : result nat :=
  match v with
  | PyStr s => Ok (String.length s)
  | PyList l => Ok (length l)
  | PyDict d => Ok (length (Py.keys d))
  | _ => Raise TypeError
  end.

(** [v[:n]]. A dict does not take a slice as a key ([TypeError] before
    Python 3.12, [KeyError] from then on; nothing below depends on which);
    the other values are not subscriptable. *)
Definition slice_to (v : pyval) (n : nat) : result pyval :=
  match v with
  | PyStr s => Ok (PyStr (Str.prefix n s))
  | PyList l => Ok (PyList (take n l))
  | _ => Raise TypeError
  end.

(** [v + s] for a string [s]. *)
Definition add_str (v : pyval) (s : string) : result pyval :=
  match v with
  | PyStr a => Ok (PyStr (a +:+ s))
  | _ => Raise TypeError
  end.

(** [bool(v)], as [if v:] takes it. The two zeros of a float are the bit
    patterns [0] and [2^63]. *)
Definition truthy (v : pyval) : bool :=
  match v with
  | PyNone => false
  | PyBool b => b
  | PyInt z => negb (Z.eqb z 0)
  | PyFloat bits => negb (Z.eqb bits 0 || Z.eqb bits (2 ^ 63))
  | PyStr s => negb (String.eqb s "")
  | PyList l => match l with [] => false | _ :: _ => true end
  | PyDict d => match d with [] => false | _ :: _ => true end
  end.

(** The code point of a character, and the code points of a string. *)
Definition code (c : ascii) : N := N_of_ascii c.

Fixpoint text (s : string) : list N :=
  match s with
  | EmptyString => []
  | String c s' => code c :: text s'
  end.

(** The characters with an upper-case form in the range: [a-z], and
    [U+00E0] to [U+00FE] without the division sign [U+00F7]. *)
Definition has_upper (c : ascii) : bool :=
  let n := nat_of_ascii c in
  ((97 <=? n)%nat && (n <=? 122)%nat)
  || ((224 <=? n)%nat && (n <=? 254)%nat && negb (n =? 247)%nat).

(** The lower-case characters: the ones above, the two ordinal indicators
    [U+00AA] and [U+00BA], the micro sign [U+00B5], the sharp s [U+00DF] and
    [U+00FF]. *)
Definition is_lower (c : ascii) : bool :=
  let n := nat_of_ascii c in
  has_upper c
  || (n =? 170)%nat || (n =? 181)%nat || (n =? 186)%nat
  || (n =? 223)%nat || (n =? 255)%nat.

Definition is_cased (c : ascii) : bool := Str.is_upper c || is_lower c.

(** The title-case form of a character. The sharp s becomes [Ss]; the micro
    sign and [U+00FF] become the capital mu [U+039C] and [U+0178]. *)
Definition title_char (c : ascii) : list N :=
  let n := nat_of_ascii c in
  if (n =? 223)%nat then [83; 115]%N
  else if (n =? 181)%nat then [924]%N
  else if (n =? 255)%nat then [376]%N
  else if has_upper c then [(code c - 32)%N]
  else [code c].

(** [s.title()]: a character that follows a cased one is lower-cased, any
    other is title-cased. *)
Fixpoint title_from (previous_is_cased : bool) (s : string) : list N :=
  match s with
  | EmptyString => []
  | String c s' =>
      (if previous_is_cased then [code (Str.lower_char c)] else title_char c)
      ++ title_from (is_cased c) s'
  end.

Definition title (s : string) : list N := title_from false s.

End Builtin.

(** Lines 127-129: the [Description] cell. The field is resolved anew for
    the test and for the branch taken; resolving has no effect, so once is
    enough here. *)
Definition description_cell (item : dict) : result pyval :=
  description <- normalize_field_name "description" item ;;
  n <- Builtin.len description ;;
  if (100 <? n)%nat then
    head <- Builtin.slice_to description 100 ;;
    Builtin.add_str head "..."
  else Ok description.

(** Lines 119-133: the row appended for one record. The three locals come
    first, then the values of the dict display in the order written. *)
Definition table_row (item : dict) : result pyval :=
  created_on <- normalize_field_name "createdon" item ;;
  updated_on <- normalize_field_name "updatedon" item ;;
  comments <- Py.getitem (PyDict item) "Comment" ;;
  formatted_comments <- format_comments comments ;;
  jira_id <- normalize_field_name "jiraid" item ;;
  component <- normalize_field_name "component" item ;;
  summary <- normalize_field_name "summary" item ;;
  description <- description_cell item ;;
  Ok (PyDict [("JIRA ID", jira_id);
              ("Component", component);
              ("Summary", summary);
              ("Description", description);
              ("Created On", created_on);
              ("Updated On", updated_on);
              ("Comments", PyStr formatted_comments)]).

(** Lines 116-133: the loop over [filtered_data]. Its elements are dicts
    (see [filter_items_dict]); the last branch is never taken. *)
Fixpoint table_loop (filtered : list pyval) (table_data : list pyval)
    : result (list pyval) :=
  match filtered with
  | [] => Ok table_data
  | PyDict item :: rest =>
      row <- table_row item ;;
      table_loop rest (table_data ++ [row])
  | _ :: _ => Raise TypeError
  end.

Definition table_data (filtered : list pyval) : result (list pyval) :=
  table_loop filtered [].

(** What the file uploader and [json.load] leave [main] with: no file; a
    file on which [json.load] raises [JSONDecodeError]; a file on which it
    raises another exception; or the parsed value. *)
Inductive upload : Type :=
  | NoFile
  | InvalidJson
  | Unreadable (e : exn)
  | Parsed (json_data : pyval).

(** What the user does on the page during one run of the script. *)
Record session : Type := {
  file_uploader : upload;
  selectbox : list string → option string;   (* the option picked, [None] when there is none *)
  text_area : string;
  button : bool
}.

(** What one run puts on the page, in order. The fixed labels are left out;
    [Core] carries the calls of [process_selected_component] and the
    [st.error] of the last handler of [main]. *)
Inductive ui_event : Type :=
  | Title
  | Intro
  | FileUploader
  | Selectbox (options : list string) (labels : list (list N))
  | Subheader (component_title : list N)
  | Dataframe (table_data : list pyval)
  | Markdown
  | TextArea
  | Button
  | Spinner
  | Expander (component : pyval)
  | WriteAnalysis (analysis : pyval)
  | Warning
  | InvalidJsonError
  | Core (ev : event).

Definition page (A : Type) : Type := list ui_event → result A * list ui_event.

Definition page_ret {A} (a : A) : page A := fun evs => (Ok a, evs).
Definition page_lift {A} (r : result A) : page A := fun evs => (r, evs).
Definition page_show (ev : ui_event) : page unit := fun evs => (Ok tt, evs ++ [ev]).

Definition page_bind {A B} (m : page A) (k : A → page B) : page B :=
  fun evs =>
    match m evs with
    | (Ok a, evs') => k a evs'
    | (Raise e, evs') => (Raise e, evs')
    end.

Definition page_try {A} (body : page A) (handler : exn → page A) : page A :=
  fun evs =>
    match body evs with
    | (Ok a, evs') => (Ok a, evs')
    | (Raise e, evs') => handler e evs'
    end.

(** A call into the core: what it records goes onto the page. *)
Definition page_core {A} (m : io A) : page A :=
  fun evs => let '(r, tr) := m [] in (r, evs ++ (Core <$> tr)).

Declare Scope page_scope.
Delimit Scope page_scope with page.
Notation "x <~ m ;; k" := (page_bind m (fun x => k))
  (at level 100, m at next level, right associativity) : page_scope.
Notation "m ;;~ k" := (page_bind m (fun _ => k))
  (at level 100, right associativity) : page_scope.
Local Open Scope page_scope.

(** Line 110 with the value the select box returned. With [None] the
    first element still has its component read and lower-cased before
    [selected_component.lower()] fails. *)
Definition filter_selected (json_data : pyval) (selected_component : option string)
    : result (list pyval) :=
  match selected_component with
  | Some sel => filtered_data json_data sel
  | None =>
      items <- Py.iter json_data ;;
      match items with
      | [] => Ok []
      | item :: _ =>
          component <- Py.getitem item "Component" ;;
          _ <- Py.lower component ;;
          Raise (AttributeError "lower")
      end
  end.

Section Main.

Variable chat_completions_create : chat_request → result pyval.
Variable s : session.

(** Lines 160-165: the button and what follows a press. *)
Definition summarize_button (json_data : pyval) (selected_component : string)
    (additional_text : string) : page unit :=
  page_show Button ;;~
  if button s then
    page_show Spinner ;;~
    result <~ page_core (process_selected_component chat_completions_create
                           json_data selected_component additional_text) ;;
    if Builtin.truthy result then
      component <~ page_lift (Py.getitem result "Component") ;;
      page_show (Expander component) ;;~
      analysis <~ page_lift (Py.getitem result "Analysis") ;;
      page_show (WriteAnalysis analysis)
    else page_ret tt
  else page_ret tt.

(** Lines 99-167: the body of the [try] block once the file is parsed. *)
Definition main_body (json_data : pyval) : page unit :=
  components <~ page_lift (components json_data) ;;
  page_show (Selectbox components (Builtin.title <$> components)) ;;~
  let selected_component := selectbox s components in
  filtered <~ page_lift (filter_selected json_data selected_component) ;;
  match filtered with
  | _ :: _ =>
      match selected_component with
      | Some sel =>
          page_show (Subheader (Builtin.title sel)) ;;~
          table <~ page_lift (table_data filtered) ;;
          page_show (Dataframe table) ;;~
          page_show Markdown ;;~
          page_show TextArea ;;~
          summarize_button json_data sel (text_area s)
      | None => page_lift (Raise (AttributeError "title"))
      end
  | [] => page_show Warning
  end.

Definition main : page unit :=
  page_show Title ;;~
  page_show Intro ;;~
  page_show FileUploader ;;~
  match file_uploader s with
  | NoFile => page_ret tt
  | InvalidJson => page_show InvalidJsonError
  | Unreadable e =>
      page_try (page_lift (Raise e))
        (fun e => page_show (Core (StError "An error occurred: " e)))
  | Parsed json_data =>
      page_try (main_body json_data)
        (fun e => page_show (Core (StError "An error occurred: " e)))
  end.

End Main.

(** A page computation keeps what is shown and adds only events that
    satisfy [P]. *)
Definition shows_only {A} (P : ui_event → Prop) (m : page A) : Prop :=
  ∀ evs, ∃ new, (m evs).2 = evs ++ new ∧ Forall P new.

(** The select box hands back one of the options it was given, whenever
    there is one. *)
Definition picks_an_option (s : session) : Prop :=
  ∀ options, options ≠ [] → ∃ x, selectbox s options = Some x ∧ x ∈ options.

(** ** What the spec calls things *)

(** The component of a record as the code reads it: the string under the
    key [Component], spelled exactly so. *)
Definition component_of (item : pyval) : option string :=
  match item with
  | PyDict d =>
      match Py.lookup "Component" d with
      | Some (PyStr c) => Some c
      | _ => None
      end
  | _ => None
  end.

(** The group a record falls into: its component, lower-cased. *)
Definition component_key (item : pyval) : string :=
  Str.lower (default "" (component_of item)).

(** How often the character [c] occurs in [s]. *)
Fixpoint count_char (c : ascii) (s : string) : nat :=
  match s with
  | EmptyString => 0
  | String d s' => (if Ascii.eqb d c then 1 else 0) + count_char c s'
  end.

(** The column headers of the table, in order. *)
Definition table_columns : list string :=
  ["JIRA ID"; "Component"; "Summary"; "Description";
   "Created On"; "Updated On"; "Comments"].

(** Lower-casing said by code point: a letter of [A-Z] or of [U+00C0] to
    [U+00DE] (the multiplication sign [U+00D7] apart) goes 32 places up, any
    other character stays. [lowered c x] says [x] is [c] lower-cased, and
    [differ_only_by_case x y] that [x] and [y] are equal up to the case of
    their characters. *)
Definition upper_code (n : nat) : bool :=
  ((65 <=? n)%nat && (n <=? 90)%nat)
  || ((192 <=? n)%nat && (n <=? 222)%nat && negb (n =? 215)%nat).

Definition lowered_char (a b : ascii) : Prop :=
  nat_of_ascii b =
    if upper_code (nat_of_ascii a) then nat_of_ascii a + 32 else nat_of_ascii a.

Fixpoint lowered (c x : string) : Prop :=
  match c, x with
  | EmptyString, EmptyString => True
  | String a c', String b x' => lowered_char a b ∧ lowered c' x'
  | _, _ => False
  end.

Definition case_variants (a b : ascii) : Prop :=
  a = b ∨ lowered_char a b ∨ lowered_char b a.

Fixpoint differ_only_by_case (x y : string) : Prop :=
  match x, y with
  | EmptyString, EmptyString => True
  | String a x', String b y' => case_variants a b ∧ differ_only_by_case x' y'
  | _, _ => False
  end.

(** The sharp s, [U+00DF]. *)
Definition sharp_s : ascii := ascii_of_nat 223.

(** [c] is a well-formed Comment with text [t]. *)
Definition is_comment (c : pyval) (t : string) : Prop :=
  ∃ d, c = PyDict d ∧ Py.lookup "comment" d = Some (PyStr t).

(** A well-formed record as the aggregator reads it: a component name and
    the texts of its comments, in order. *)
Record record_view : Type := {
  rv_component : string;
  rv_texts : list string
}.

Definition is_record (item : pyval) (rv : record_view) : Prop :=
  ∃ d cs, item = PyDict d
    ∧ Py.lookup "Component" d = Some (PyStr (rv_component rv))
    ∧ Py.lookup "Comment" d = Some (PyList cs)
    ∧ Forall2 is_comment cs (rv_texts rv).

(** The comment texts of the records of the selected component: records in
    their order, comments in their order within each record. *)
Definition matching_texts (selected_component : string)
    (rvs : list record_view) : list string :=
  concat (rv_texts <$>
    List.filter
      (λ rv, String.eqb (Str.lower (rv_component rv))
                        (Str.lower selected_component)) rvs).

(** A record the table can show: a dict whose [Comment] is a list of
    well-formed comments and whose description, if it has one, is a string. *)
Definition displayable (item : pyval) : Prop :=
  ∃ d cs ts, item = PyDict d
    ∧ Py.lookup "Comment" d = Some (PyList cs)
    ∧ Forall2 is_comment cs ts
    ∧ ∃ text, normalize_field_name "description" d = Ok (PyStr text).

(** filterByComponent as the spec words it: the records whose component
    field, looked up with the field name matched case-insensitively,
    equals the given name up to case. *)
Definition spec_component_matches (normalized_name : string) (record : pyval)
    : bool :=
  match record with
  | PyDict d =>
      match normalize_field_name "component" d with
      | Ok (PyStr c) => String.eqb (Str.lower c) (Str.lower normalized_name)
      | _ => false
      end
  | _ => false
  end.

Definition spec_filterByComponent (records : list pyval)
    (normalized_name : string) : list pyval :=
  List.filter (spec_component_matches normalized_name) records.

(** The test the code applies to a record. *)
Definition component_matches (selected_component : string) (item : pyval)
    : bool :=
  match component_of item with
  | Some c => String.eqb (Str.lower c) (Str.lower selected_component)
  | None => false
  end.

(** A record the code cannot read a component from: the key [Component]
    is absent or holds something other than a string. *)
Definition component_unusable (item : pyval) : Prop :=
  ∃ d, item = PyDict d ∧ component_of (PyDict d) = None.

(** The message prefix of the handler of [process_selected_component]. *)
Definition error_prefix : string := "Error processing component: ".

(** A record whose comments the inner loop cannot read: [Comment] holds a
    value that cannot be iterated, or one of its entries is not a dict. *)
Definition comments_unreadable (item : pyval) : Prop :=
  ∃ d cm, item = PyDict d ∧ Py.lookup "Comment" d = Some cm ∧
    match Py.iter cm with
    | Ok entries => ∃ entry, entry ∈ entries ∧ ∀ e, entry ≠ PyDict e
    | Raise _ => True
    end.

(** The text shown for a comment: newlines turned into spaces, then cut to
    97 characters and an ellipsis when longer than 100. *)
Definition display_text (t : string) : string :=
  let collapsed := Str.replace Str.nl_char Str.space_char t in
  if (100 <? String.length collapsed)%nat
  then Str.prefix 97 collapsed +:+ "..."
  else collapsed.

Definition numbered_line (i : nat) (t : string) : string :=
  Str.of_nat i +:+ ". " +:+ display_text t.

(** [key] matches [field_name] up to case. *)
Definition ci_match (field_name key : string) : bool :=
  String.eqb (Str.lower key) (Str.lower field_name).

(** At most one key of the record matches [field_name] up to case. *)
Definition ci_unique (field_name : string) (R : dict) : Prop :=
  ∀ k1 k2, k1 ∈ Py.keys R → k2 ∈ Py.keys R →
    Str.lower k1 = Str.lower field_name →
    Str.lower k2 = Str.lower field_name → k1 = k2.

(** ** Sample record sets *)

Module Samples.

(** A summarizer that answers every request. *)
Definition chat_ok : chat_request → result pyval :=
  λ _, Ok (PyStr "summary").

(** A summarizer that fails. *)
Definition chat_down : chat_request → result pyval :=
  λ _, Raise (CapabilityError "timeout").

Definition comment (t : string) : pyval := PyDict [("comment", PyStr t)].

Definition record (component : string) (comments : list pyval) : pyval :=
  PyDict [("Component", PyStr component); ("Comment", PyList comments)].

(** The names [Été] and [été], one character per code point. *)
Definition Ete : string :=
  String (ascii_of_nat 201) (String "t" (String (ascii_of_nat 233) EmptyString)).
Definition ete : string :=
  String (ascii_of_nat 233) (String "t" (String (ascii_of_nat 233) EmptyString)).

Definition two_lines : pyval :=
  PyList [record "UI" [comment "line1"; comment "line2"]].

Definition two_records : pyval :=
PyList [record "UI" [comment "line1"]; record "db" [comment "other"];
        record "ui" [comment "line2"]].

Definition ui_and_db : pyval :=
  PyList [record "ui" []; record "db" [comment "slow"]].

(** The first record has no [Component]. *)
Definition unlabelled_first : pyval :=
  PyList [PyDict [("Comment", PyList [comment "lost"])];
          record "ui" [comment "slow"]].

(** The comment entry has no [comment] key. *)
Definition keyless_entry : pyval :=
  PyList [record "ui" [PyDict [("text", PyStr "x")]]].

(** [Comment] is a number. *)
Definition numeric_comment : pyval :=
  PyList [record "ui" [comment "slow"];
          PyDict [("Component", PyStr "UI"); ("Comment", PyInt 5)]].

(** A full record, as the table reads it. *)
Definition ticket (component description : string) (comments : list pyval) : dict :=
  [("JiraID", PyStr "J-1"); ("Component", PyStr component);
   ("Summary", PyStr "login fails"); ("description", PyStr description);
   ("CreatedOn", PyStr "2024-01-01"); ("UpdatedOn", PyStr "2024-01-02");
   ("Comment", PyList comments)].

Definition tickets : pyval :=
PyList [PyDict (ticket "UI" "short" [comment "slow"]);
        PyDict (ticket "db" "short" []);
        PyDict (ticket "ui" "short" [comment "crash"])].

(** A user who uploads [data], leaves the select box on its first option
    and types nothing; [pressed] says whether the button is pressed. *)
Definition visit (data : pyval) (pressed : bool) : session :=
  {| file_uploader := Parsed data;
     selectbox := head;
     text_area := "";
     button := pressed |}.

End Samples.

Import Samples.

(** A text of 150 characters, none of them a newline. *)
Definition digits150 : string := String.concat "" (replicate 15 "0123456789").

(** * Properties *)

(** ** Strings *)

Section StrFacts.

Lemma lower_char_idemp c : Str.lower_char (Str.lower_char c) = Str.lower_char c.
Proof. destruct c as [[] [] [] [] [] [] [] []]; reflexivity. Qed.

Lemma lower_idemp s : Str.lower (Str.lower s) = Str.lower s.
Proof.
  induction s as [|c s IH]; simpl; [done|].
  by rewrite lower_char_idemp, IH.
Qed.

Lemma replace_length old new s :
  String.length (Str.replace old new s) = String.length s.
Proof. induction s; simpl; congruence. Qed.

Lemma replace_absent old new s :
  Str.mem old s = false → Str.replace old new s = s.
Proof.
  induction s as [|c s IH]; simpl; [done|].
  intros [Hc Hs]%orb_false_iff. by rewrite Hc, IH.
Qed.

Lemma replace_removes old new s :
  new ≠ old → Str.mem old (Str.replace old new s) = false.
Proof.
  intros Hne. induction s as [|c s IH]; simpl; [done|].
  rewrite IH, orb_false_r.
  destruct (Ascii.eqb c old) eqn:E; [|done].
  by apply Ascii.eqb_neq.
Qed.

Lemma prefix_length n s :
  n ≤ String.length s → String.length (Str.prefix n s) = n.
Proof.
  unfold Str.prefix. revert s.
  induction n as [|n IH]; intros [|c s]; simpl; try done; try lia.
  intros ?. rewrite IH; lia.
Qed.

Lemma append_cons c s1 s2 : String c s1 +:+ s2 = String c (s1 +:+ s2).
Proof. reflexivity. Qed.

Lemma append_nil s : "" +:+ s = s.
Proof. reflexivity. Qed.

Lemma prefix_is_prefix n s : ∃ rest, s = Str.prefix n s +:+ rest.
Proof.
  unfold Str.prefix. revert s.
  induction n as [|n IH]; intros [|c s]; simpl; eauto.
  destruct (IH s) as [rest Hrest]. exists rest.
  rewrite append_cons. by f_equal.
Qed.

Lemma append_length s1 s2 :
  String.length (s1 +:+ s2) = String.length s1 + String.length s2.
Proof.
  induction s1 as [|c s1 IH]; [done|].
  rewrite append_cons. simpl. by rewrite IH.
Qed.

Lemma mem_append c s1 s2 :
  Str.mem c (s1 +:+ s2) = Str.mem c s1 || Str.mem c s2.
Proof.
  induction s1 as [|d s1 IH]; [done|].
  rewrite append_cons. simpl. by rewrite IH, orb_assoc.
Qed.

Lemma mem_prefix c n s : Str.mem c s = false → Str.mem c (Str.prefix n s) = false.
Proof.
  destruct (prefix_is_prefix n s) as [rest Hrest].
  rewrite Hrest at 1. rewrite mem_append. by intros [? ?]%orb_false_iff.
Qed.

(** The order on strings. *)

Lemma ascii_compare_trans c a1 a2 a3 :
  Ascii.compare a1 a2 = c → Ascii.compare a2 a3 = c → Ascii.compare a1 a3 = c.
Proof.
  unfold Ascii.compare.
  destruct (N.compare_spec (N_of_ascii a1) (N_of_ascii a2)),
           (N.compare_spec (N_of_ascii a2) (N_of_ascii a3)),
           (N.compare_spec (N_of_ascii a1) (N_of_ascii a3));
    intros; subst; try congruence; lia.
Qed.

Lemma ascii_compare_refl a : Ascii.compare a a = Eq.
Proof. apply N.compare_refl. Qed.

Lemma compare_trans c s1 s2 s3 :
  String.compare s1 s2 = c → String.compare s2 s3 = c → String.compare s1 s3 = c.
Proof.
  revert s2 s3. induction s1 as [|a1 s1 IH]; intros [|a2 s2] [|a3 s3]; simpl;
    try congruence.
  destruct (Ascii.compare a1 a2) eqn:E12, (Ascii.compare a2 a3) eqn:E23;
    try congruence;
    try (apply Ascii.compare_eq_iff in E12; subst a2; rewrite ?E23);
    try (apply Ascii.compare_eq_iff in E23; subst a3; rewrite ?E12);
    rewrite ?ascii_compare_refl; try congruence; eauto.
  - rewrite (ascii_compare_trans Lt a1 a2 a3); done.
  - rewrite (ascii_compare_trans Gt a1 a2 a3); done.
Qed.

Lemma le_cases s1 s2 : Str.le s1 s2 ↔ s1 = s2 ∨ Str.lt s1 s2.
Proof.
  unfold Str.le, Str.lt, String.leb.
  destruct (String.compare s1 s2) eqn:E.
  - apply String.compare_eq_iff in E. naive_solver.
  - naive_solver.
  - split; [done|]. intros [->|?]; [|done].
    assert (String.compare s2 s2 = Eq) as Heq; [|congruence].
    clear E. induction s2; simpl; [done|]. by rewrite ascii_compare_refl.
Qed.

#[global] Instance lt_trans : Transitive Str.lt.
Proof. intros s1 s2 s3. apply compare_trans. Qed.

#[global] Instance le_trans : Transitive Str.le.
Proof.
  intros s1 s2 s3. rewrite !le_cases.
  intros [->|H12] [->|H23]; eauto. right. by trans s2.
Qed.

#[global] Instance le_total : Total Str.le.
Proof. intros s1 s2. apply String.leb_total. Qed.

#[global] Instance le_antisym : AntiSymm (=) Str.le.
Proof. intros s1 s2. apply String.leb_antisym. Qed.

Lemma lt_irrefl s : ¬ Str.lt s s.
Proof.
  unfold Str.lt. induction s; simpl; [done|]. by rewrite ascii_compare_refl.
Qed.

(** Lower-casing by code point. *)

Lemma nat_of_ascii_inj a b : nat_of_ascii a = nat_of_ascii b → a = b.
Proof.
  intros H. rewrite <- (ascii_nat_embedding a), <- (ascii_nat_embedding b).
  by rewrite H.
Qed.

Lemma lower_char_lowered a : lowered_char a (Str.lower_char a).
Proof. destruct a as [[] [] [] [] [] [] [] []]; reflexivity. Qed.

Lemma lowered_char_lower a b : lowered_char a b ↔ b = Str.lower_char a.
Proof.
  split; [|intros ->; apply lower_char_lowered].
  intros Hab. apply nat_of_ascii_inj.
  pose proof (lower_char_lowered a) as Ha. unfold lowered_char in *. congruence.
Qed.

Lemma lowered_lower c x : lowered c x ↔ x = Str.lower c.
Proof.
  revert x. induction c as [|a c IH]; intros [|b x]; simpl; try done.
  rewrite lowered_char_lower, IH. split; [by intros [-> ->]|by intros [= -> ->]].
Qed.

Lemma case_variants_lower a b :
  case_variants a b → Str.lower_char a = Str.lower_char b.
Proof.
  intros [->|[H|H]]; [done| |]; apply lowered_char_lower in H; subst;
    by rewrite lower_char_idemp.
Qed.

Lemma differ_only_by_case_lower x y :
  differ_only_by_case x y → Str.lower x = Str.lower y.
Proof.
  revert y. induction x as [|a x IH]; intros [|b y]; simpl; try done.
  intros [Hab Hxy]. by rewrite (case_variants_lower _ _ Hab), (IH _ Hxy).
Qed.

End StrFacts.

(** ** Reading the component of a record *)

Section Component.

Lemma component_of_Some item c :
  component_of item = Some c →
  Py.getitem item "Component" = Ok (PyStr c).
Proof.
  destruct item as [| | | | |?|d]; simpl; try done.
  destruct (Py.lookup "Component" d) as [[]|]; naive_solver.
Qed.

Lemma component_of_None item :
  component_of item = None →
  raises (component <- Py.getitem item "Component" ;; Py.lower component).
Proof.
  destruct item as [| | | | |?|d]; simpl; try done.
  destruct (Py.lookup "Component" d) as [[]|]; naive_solver.
Qed.

Lemma component_names_lower items cs :
  Forall2 (λ item c, component_of item = Some c) items cs →
  component_names items = Ok (Str.lower <$> cs).
Proof.
  induction 1 as [|item c items cs Hc _ IH]; simpl; [done|].
  by rewrite (component_of_Some _ _ Hc), IH.
Qed.

Lemma sorted_distinct_strict (l : list string) :
  StronglySorted Str.le l → NoDup l → StronglySorted Str.lt l.
Proof.
  induction 1 as [|x l Hl IH Hx]; intros Hnd; [constructor|].
  apply NoDup_cons in Hnd as [Hnotin Hnd].
  constructor; [by apply IH|].
  rewrite Forall_forall in Hx |- *. intros y Hy.
  destruct (proj1 (le_cases x y) (Hx y Hy)) as [->|]; done.
Qed.

(** Whatever order the set is listed in, [sorted] gives the same list. *)
Lemma sorted_set_order_irrelevant (names : gset string) (l : list string) :
  l ≡ₚ elements names →
  merge_sort Str.le l = merge_sort Str.le (elements names).
Proof.
  intros Hl. apply (Sorted_unique Str.le); try apply Sorted_merge_sort; try apply _.
  by rewrite !merge_sort_Permutation.
Qed.

(** C9. For every list of records, each with a string under [Component],
    the component index is the set of lower-cased component names: it is
    sorted strictly ascending in the lexicographic order, so it has no
    duplicate, it holds exactly the lower-cased names, and no two of its
    entries differ only by case. Lower-casing and differing only by case
    are said twice: through [str.lower] as modelled, and by code point. *)
Theorem components_sorted_distinct (items : list pyval) (cs : list string) :
  Forall2 (λ item c, component_of item = Some c) items cs →
  ∃ names, components (PyList items) = Ok names
    ∧ StronglySorted Str.lt names
    ∧ NoDup names
    ∧ (∀ x, x ∈ names ↔ ∃ c, c ∈ cs ∧ x = Str.lower c)
    ∧ (∀ x y, x ∈ names → y ∈ names → Str.lower x = Str.lower y → x = y)
    ∧ (∀ x, x ∈ names ↔ ∃ c, c ∈ cs ∧ lowered c x)
    ∧ (∀ x y, x ∈ names → y ∈ names → differ_only_by_case x y → x = y).
Proof.
  intros Hcs. unfold components. simpl.
  rewrite (component_names_lower _ _ Hcs). simpl.
  set (s := list_to_set (Str.lower <$> cs) : gset string).
  eexists; split; [reflexivity|].
  assert (NoDup (merge_sort Str.le (elements s))) as Hnd.
  { rewrite merge_sort_Permutation. apply NoDup_elements. }
  assert (∀ x, x ∈ merge_sort Str.le (elements s) ↔ ∃ c, c ∈ cs ∧ x = Str.lower c)
    as Hmem.
  { intros x. rewrite merge_sort_Permutation, elem_of_elements.
    unfold s. rewrite elem_of_list_to_set, list_elem_of_fmap.
    split; intros (c & ? & ?); exists c; done. }
  assert (∀ x y, x ∈ merge_sort Str.le (elements s) →
                 y ∈ merge_sort Str.le (elements s) →
                 Str.lower x = Str.lower y → x = y) as Hcase.
  { intros x y Hx Hy.
    apply Hmem in Hx as (cx & _ & ->). apply Hmem in Hy as (cy & _ & ->).
    by rewrite !lower_idemp. }
  split; [|split; [done|split; [done|split; [done|split]]]].
  - apply sorted_distinct_strict; [|done].
    apply StronglySorted_merge_sort; apply _.
  - intros x. rewrite Hmem.
    split; intros (c & Hc & Hx); exists c; split; try done;
      by apply lowered_lower.
  - intros x y Hx Hy Hxy. apply Hcase; [done|done|].
    by apply differ_only_by_case_lower.
Qed.

Lemma components_sorted_distinct_witness :
  components
    (PyList [PyDict [("Component", PyStr "UI")];
             PyDict [("Component", PyStr Ete)];
             PyDict [("Component", PyStr "auth")];
             PyDict [("Component", PyStr ete)];
             PyDict [("Component", PyStr "ui")]]) = Ok ["auth"; "ui"; ete]
  ∧ StronglySorted Str.lt ["auth"; "ui"; ete]
  ∧ NoDup ["auth"; "ui"; ete]
  ∧ (∀ x, x ∈ ["auth"; "ui"; ete]
          ↔ ∃ c, c ∈ ["UI"; Ete; "auth"; ete; "ui"] ∧ x = Str.lower c)
  ∧ (∀ x y, x ∈ ["auth"; "ui"; ete] → y ∈ ["auth"; "ui"; ete] →
            Str.lower x = Str.lower y → x = y)
  ∧ (∀ x, x ∈ ["auth"; "ui"; ete]
          ↔ ∃ c, c ∈ ["UI"; Ete; "auth"; ete; "ui"] ∧ lowered c x)
  ∧ (∀ x y, x ∈ ["auth"; "ui"; ete] → y ∈ ["auth"; "ui"; ete] →
            differ_only_by_case x y → x = y).
Proof.
  destruct (components_sorted_distinct
              [PyDict [("Component", PyStr "UI")];
               PyDict [("Component", PyStr Ete)];
               PyDict [("Component", PyStr "auth")];
               PyDict [("Component", PyStr ete)];
               PyDict [("Component", PyStr "ui")]]
              ["UI"; Ete; "auth"; ete; "ui"])
    as (names & Hnames & Hrest); [repeat constructor|].
  assert (names = ["auth"; "ui"; ete]) as ->.
  { vm_compute in Hnames. by injection Hnames as <-. }
  split; [|exact Hrest]. vm_compute. reflexivity.
Defined.

Example components_example :
  components
    (PyList [PyDict [("Component", PyStr "UI")];
             PyDict [("Component", PyStr "auth")];
             PyDict [("Component", PyStr "ui")]]) = Ok ["auth"; "ui"].
Proof. vm_compute. reflexivity. Qed.

(** An upper-case name is not kept as it is, and a name and its accented
    capital form fall together. *)
Example components_lower_cases :
  components (PyList [PyDict [("Component", PyStr "UI")]]) = Ok ["ui"]
  ∧ components (PyList [PyDict [("Component", PyStr Ete)];
                        PyDict [("Component", PyStr ete)]]) = Ok [ete]
  ∧ Str.lower Ete = ete.
Proof. repeat split; vm_compute; reflexivity. Qed.

End Component.

(** ** The component filter *)

Section Filter.

Lemma filter_items_dict items selected_component kept :
  filter_items items selected_component = Ok kept →
  Forall (λ item, ∃ d, item = PyDict d) kept.
Proof.
  revert kept. induction items as [|item items IH]; simpl; intros kept.
  - intros [= <-]. constructor.
  - destruct item as [| | | | |?|d]; simpl; try done.
    destruct (Py.lookup "Component" d) as [[]|]; simpl; try done.
    destruct (filter_items items selected_component) as [kept'|]; simpl; [|done].
    intros [= <-]. specialize (IH _ eq_refl).
    destruct (String.eqb _ _); [constructor|]; eauto.
Qed.

Lemma filter_items_raises items selected_component bad :
  bad ∈ items → component_of bad = None →
  raises (filter_items items selected_component).
Proof.
  intros Hin Hbad. induction Hin as [bad items|bad item items _ IH]; simpl.
  - pose proof (component_of_None _ Hbad) as Hr.
    destruct (Py.getitem bad "Component") as [c|]; simpl in *; [|done].
    destruct (Py.lower c); simpl in *; done.
  - destruct (Py.getitem item "Component") as [c|]; simpl; [|done].
    destruct (Py.lower c); simpl; [|done].
    specialize (IH Hbad).
    destruct (filter_items items selected_component); simpl in *; done.
Qed.

(** C2, as amended. For every list of records that each hold a string
    under the key [Component] (spelled exactly so), the filter returns
    exactly the records whose component equals the given name up to case,
    in their original order. *)
Theorem filtered_data_exact_key (items : list pyval) (selected_component : string) :
  Forall (λ item, is_Some (component_of item)) items →
  filtered_data (PyList items) selected_component =
    Ok (List.filter (component_matches selected_component) items).
Proof.
  unfold filtered_data. simpl.
  induction 1 as [|item items [c Hc] _ IH]; simpl; [done|].
  rewrite (component_of_Some _ _ Hc), IH. simpl.
  assert (component_matches selected_component item
          = String.eqb (Str.lower c) (Str.lower selected_component)) as ->; [|done].
  unfold component_matches. by rewrite Hc.
Qed.

Lemma filtered_data_exact_key_witness :
  filtered_data
    (PyList [PyDict [("Component", PyStr "UI")];
             PyDict [("Component", PyStr "db")];
             PyDict [("Component", PyStr "ui")]]) "ui"
  = Ok [PyDict [("Component", PyStr "UI")]; PyDict [("Component", PyStr "ui")]].
Proof.
  apply (filtered_data_exact_key
           [PyDict [("Component", PyStr "UI")];
            PyDict [("Component", PyStr "db")];
            PyDict [("Component", PyStr "ui")]] "ui").
  repeat constructor; by eexists.
Defined.

(** C2 as stated fails: a record that spells its field [component] is
    selected by the spec's filter, while the code raises [KeyError]. *)
Lemma filtered_data_field_name_case :
  spec_filterByComponent [PyDict [("component", PyStr "auth")]] "auth"
    = [PyDict [("component", PyStr "auth")]]
  ∧ filtered_data (PyList [PyDict [("component", PyStr "auth")]]) "auth"
    = Raise (KeyError "Component").
Proof. split; reflexivity. Qed.

End Filter.

(** ** The aggregator *)

Section Aggregator.

Variable chat : chat_request → result pyval.

Implicit Types (items : list pyval) (sel extra : string) (tr : trace).

Lemma append_comments_raises entries entry acc :
  entry ∈ entries → (∀ e, entry ≠ PyDict e) →
  raises (append_comments entries acc).
Proof.
  intros Hin Hnd. revert acc.
  induction Hin as [entry entries|entry other entries _ IH]; intros acc; simpl.
  - destruct entry as [| | | | | |d]; simpl; try done. by destruct (Hnd d).
  - destruct (Py.get other "comment" (PyStr "")); simpl; [apply IH|]; done.
Qed.

Lemma aggregate_items_raises items item sel acc :
  item ∈ items →
  (∀ acc', raises (aggregate_item item sel acc')) →
  raises (aggregate_items items sel acc).
Proof.
  intros Hin Hr. revert acc.
  induction Hin as [item items|item other items _ IH]; intros acc; simpl.
  - specialize (Hr acc). by destruct (aggregate_item item sel acc).
  - destruct (aggregate_item other sel acc); simpl; [apply IH|]; done.
Qed.

Lemma aggregate_item_unusable item sel acc :
  component_of item = None → raises (aggregate_item item sel acc).
Proof.
  intros Hbad. pose proof (component_of_None _ Hbad) as Hr.
  unfold aggregate_item.
  destruct (Py.getitem item "Component") as [c|]; simpl in *; [|done].
  destruct (Py.lower c); simpl in *; done.
Qed.

Lemma aggregate_item_unreadable item sel acc :
  component_matches sel item = true → comments_unreadable item →
  raises (aggregate_item item sel acc).
Proof.
  intros Hm (d & cm & -> & Hcm & Hiter).
  unfold component_matches in Hm. unfold aggregate_item.
  destruct (component_of (PyDict d)) as [c|] eqn:Hc; [|done].
  rewrite (component_of_Some _ _ Hc). simpl. rewrite Hm, Hcm. simpl.
  destruct (Py.iter cm) as [entries|]; simpl; [|done].
  destruct Hiter as (entry & Hin & Hnd).
  by apply (append_comments_raises _ entry).
Qed.

Lemma append_comments_texts cs ts acc :
  Forall2 is_comment cs ts →
  append_comments cs acc = Ok (acc ++ (PyStr <$> ts)).
Proof.
  intros Hcs. revert acc.
  induction Hcs as [|c t cs ts (d & -> & Hd) _ IH]; intros acc; simpl.
  - by rewrite app_nil_r.
  - rewrite Hd. simpl. rewrite IH. by rewrite <- app_assoc.
Qed.

Lemma aggregate_items_texts items rvs sel acc :
  Forall2 is_record items rvs →
  aggregate_items items sel acc = Ok (acc ++ (PyStr <$> matching_texts sel rvs)).
Proof.
  intros Hrs. revert acc. unfold matching_texts.
  induction Hrs as [|item rv items rvs (d & cs & -> & Hc & Hcm & Hcs) _ IH];
    intros acc; simpl.
  - by rewrite app_nil_r.
  - unfold aggregate_item. simpl. rewrite Hc. simpl.
    destruct (String.eqb _ _); simpl.
    + rewrite Hcm. simpl. rewrite (append_comments_texts _ _ _ Hcs). simpl.
      rewrite IH. by rewrite fmap_app, app_assoc.
    + apply IH.
Qed.

(** On well-formed records the loops gather the matching texts. *)
Lemma aggregated_comments_texts items rvs sel :
  Forall2 is_record items rvs →
  aggregated_comments (PyList items) sel = Ok (PyStr <$> matching_texts sel rvs).
Proof.
  intros Hrs. unfold aggregated_comments. simpl.
  by rewrite (aggregate_items_texts _ _ _ _ Hrs).
Qed.

(** What the handler makes of the body's outcome. *)
Lemma process_handles data sel extra tr :
  process_selected_component chat data sel extra tr =
    match process_body chat data sel extra tr with
    | (Ok v, tr') => (Ok v, tr')
    | (Raise e, tr') => (Ok PyNone, tr' ++ [StError error_prefix e])
    end.
Proof.
  unfold process_selected_component, try_except.
  by destruct (process_body chat data sel extra tr) as [[v|e] tr'].
Qed.

Lemma process_loop_raises data sel extra tr :
  raises (aggregated_comments data sel) →
  ∃ e, process_selected_component chat data sel extra tr =
         (Ok PyNone, tr ++ [StError error_prefix e]).
Proof.
  intros Hr. rewrite process_handles. unfold process_body, io_bind, io_lift.
  destruct (aggregated_comments data sel) as [|e]; [done|]. by exists e.
Qed.

(** The payload for texts that are all strings. *)
Lemma process_payload data sel extra tr text texts :
  aggregated_comments data sel = Ok (PyStr <$> (text :: texts)) →
  let payload := (Str.join Str.nl (text :: texts) +:+ (Str.nl +:+ Str.nl)) +:+ extra in
  process_selected_component chat data sel extra tr =
    match chat (summarize_request payload) with
    | Ok analysis =>
        (Ok (PyDict [("Component", PyStr sel); ("Analysis", analysis)]),
         tr ++ [ChatCompletion (summarize_request payload)])
    | Raise e =>
        (Ok PyNone,
         tr ++ [ChatCompletion (summarize_request payload);
                StError error_prefix e])
    end.
Proof.
  intros Hagg payload. rewrite process_handles.
  unfold process_body, io_bind, io_lift. rewrite Hagg.
  assert (Py.strings (PyStr <$> (text :: texts)) = Ok (text :: texts)) as Hs.
  { generalize (text :: texts). intros l.
    induction l as [|x l IH]; [done|]. rewrite fmap_cons. simpl.
    by rewrite IH. }
  rewrite fmap_cons in Hs |- *. unfold Py.join. rewrite Hs. simpl.
  unfold summarize_with_llm, io_bind, io_emit, io_lift, io_ret.
  subst payload. simpl.
  destruct (chat _); [done|]. by rewrite <- app_assoc.
Qed.

(** C1. For every list of records whose matching comment texts, records
    in their order and comments in order within each record, are [line1]
    and [line2], aggregating with the extra text [focus on X] hands the
    summarizer exactly the payload [line1\nline2\n\nfocus on X]: the one
    request sent is the one built from that payload, and it is sent before
    anything else is recorded. *)
Theorem payload_line1_line2 items rvs sel tr :
  Forall2 is_record items rvs →
  matching_texts sel rvs = ["line1"; "line2"] →
  let payload :=
    "line1" +:+ Str.nl +:+ "line2" +:+ Str.nl +:+ Str.nl +:+ "focus on X" in
  process_selected_component chat (PyList items) sel "focus on X" tr =
    match chat (summarize_request payload) with
    | Ok analysis =>
        (Ok (PyDict [("Component", PyStr sel); ("Analysis", analysis)]),
         tr ++ [ChatCompletion (summarize_request payload)])
    | Raise e =>
        (Ok PyNone,
         tr ++ [ChatCompletion (summarize_request payload);
                StError error_prefix e])
    end.
Proof.
  intros Hrs Htexts.
  apply (process_payload (PyList items) sel "focus on X" tr "line1" ["line2"]).
  by rewrite (aggregated_comments_texts _ _ _ Hrs), Htexts.
Qed.

(** C3. Whenever no comment text is gathered for the selected component,
    the aggregator returns [None]: nothing is raised, nothing is reported
    and the summarizer is not called (the trace is unchanged). *)
Theorem no_comments_no_result data sel extra tr :
  aggregated_comments data sel = Ok [] →
  process_selected_component chat data sel extra tr = (Ok PyNone, tr).
Proof.
  intros Hagg. rewrite process_handles.
  unfold process_body, io_bind, io_lift. by rewrite Hagg.
Qed.

(** C4, as amended. A record whose [Component] is absent or is not a
    string is not skipped: wherever it stands in the list, the filter
    raises, and the aggregator reports one error and returns [None]
    without calling the summarizer, whatever the other records hold. *)
Theorem component_unusable_fails items bad sel extra tr :
  bad ∈ items → component_unusable bad →
  raises (filtered_data (PyList items) sel)
  ∧ ∃ e, process_selected_component chat (PyList items) sel extra tr =
           (Ok PyNone, tr ++ [StError error_prefix e]).
Proof.
  intros Hin (d & -> & Hbad). split.
  - by apply (filter_items_raises items sel (PyDict d)).
  - apply process_loop_raises. unfold aggregated_comments. simpl.
    apply (aggregate_items_raises _ (PyDict d)); [done|].
    intros acc. by apply aggregate_item_unusable.
Qed.

(** C5, as amended. (1) A comment entry that is a dict without the key
    [comment] is accepted without any report: it contributes the empty
    string. (2) A matching record whose [Comment] cannot be iterated, or
    has an entry that is not a dict, makes the aggregator report one error
    and return [None], the summarizer not being called. (3) That is the one
    handler every failure of the body goes through, a failure of the
    summarizer included: the exception is reported under the same prefix
    and [None] is returned, so only the text of the message tells the two
    kinds of failure apart. *)
Theorem malformed_comment_handling :
  (∀ d rest acc, Py.lookup "comment" d = None →
     append_comments (PyDict d :: rest) acc
     = append_comments rest (acc ++ [PyStr ""]))
  ∧ (∀ items item sel extra tr,
       item ∈ items → component_matches sel item = true →
       comments_unreadable item →
       ∃ e, process_selected_component chat (PyList items) sel extra tr =
              (Ok PyNone, tr ++ [StError error_prefix e]))
  ∧ (∀ data sel extra tr e tr',
       process_body chat data sel extra tr = (Raise e, tr') →
       process_selected_component chat data sel extra tr =
         (Ok PyNone, tr' ++ [StError error_prefix e])).
Proof.
  split; [|split].
  - intros d rest acc Hd. simpl. by rewrite Hd.
  - intros items item sel extra tr Hin Hm Hu.
    apply process_loop_raises. unfold aggregated_comments. simpl.
    apply (aggregate_items_raises _ item); [done|].
    intros acc. by apply aggregate_item_unreadable.
  - intros data sel extra tr e tr' Hbody.
    by rewrite process_handles, Hbody.
Qed.

(** C10. [process_selected_component] always returns, and what it
    returns is [None] or a dict holding the component and the analysis:
    no exception leaves it. An exception raised in its body is reported
    and turned into [None], which is also what the no-data case returns. *)
Theorem process_never_raises data sel extra tr :
  ∃ v tr',
    process_selected_component chat data sel extra tr = (Ok v, tr')
    ∧ (v = PyNone
       ∨ ∃ analysis,
           v = PyDict [("Component", PyStr sel); ("Analysis", analysis)])
    ∧ (∀ e tr1, process_body chat data sel extra tr = (Raise e, tr1) →
         v = PyNone ∧ tr' = tr1 ++ [StError error_prefix e])
    ∧ (aggregated_comments data sel = Ok [] → v = PyNone ∧ tr' = tr).
Proof.
  rewrite process_handles.
  assert (∀ v tr1, process_body chat data sel extra tr = (Ok v, tr1) →
            v = PyNone
            ∨ ∃ analysis,
                v = PyDict [("Component", PyStr sel); ("Analysis", analysis)])
    as Hshape.
  { unfold process_body, io_bind, io_lift, io_ret, summarize_with_llm, io_emit.
    intros v tr1.
    destruct (aggregated_comments data sel) as [[|x l]|]; [naive_solver| |done].
    destruct (Py.join Str.nl (x :: l)); [|done].
    destruct (chat _); [|done]. intros [= <- <-]. eauto. }
  assert (aggregated_comments data sel = Ok [] →
          process_body chat data sel extra tr = (Ok PyNone, tr)) as Hnone.
  { intros Hagg. unfold process_body, io_bind, io_lift. by rewrite Hagg. }
  destruct (process_body chat data sel extra tr) as [[v|e] tr1] eqn:Hbody.
  - exists v, tr1. split; [done|]. split; [by eapply Hshape|]. split; [done|].
    intros Hagg. specialize (Hnone Hagg). by simplify_eq.
  - exists PyNone, (tr1 ++ [StError error_prefix e]).
    split; [done|]. split; [by left|]. split.
    + intros e' tr2 [= <- <-]. done.
    + intros Hagg. specialize (Hnone Hagg). done.
Qed.

End Aggregator.

(** ** The aggregator on the sample record sets *)

Lemma payload_line1_line2_witness :
  process_selected_component chat_ok two_records "ui" "focus on X" [] =
    (Ok (PyDict [("Component", PyStr "ui"); ("Analysis", PyStr "summary")]),
     [ChatCompletion
        (summarize_request
           ("line1" +:+ Str.nl +:+ "line2" +:+ Str.nl +:+ Str.nl +:+ "focus on X"))]).
Proof.
  apply (payload_line1_line2 chat_ok _
           [ {| rv_component := "UI"; rv_texts := ["line1"] |};
             {| rv_component := "db"; rv_texts := ["other"] |};
             {| rv_component := "ui"; rv_texts := ["line2"] |} ] "ui" []).
  - repeat constructor; eexists _, _; repeat split;
      repeat constructor; eexists; split; reflexivity.
  - reflexivity.
Defined.

Lemma no_comments_no_result_witness :
  process_selected_component chat_ok ui_and_db "ui" "focus on X" [] = (Ok PyNone, []).
Proof.
  apply (no_comments_no_result chat_ok ui_and_db "ui" "focus on X" []). reflexivity.
Defined.

(** C4 as stated fails: with the unlabelled record in front, the filter
    raises and the aggregation of the [ui] record, which succeeds on its
    own, ends in a reported error. *)
Lemma component_unusable_not_skipped :
  process_selected_component chat_ok (PyList [record "ui" [comment "slow"]]) "ui" "" []
    = (Ok (PyDict [("Component", PyStr "ui"); ("Analysis", PyStr "summary")]),
       [ChatCompletion (summarize_request ("slow" +:+ Str.nl +:+ Str.nl))])
  ∧ process_selected_component chat_ok unlabelled_first "ui" "" []
    = (Ok PyNone, [StError error_prefix (KeyError "Component")])
  ∧ filtered_data unlabelled_first "ui" = Raise (KeyError "Component")
  ∧ filtered_data (PyList [PyDict [("Component", PyInt 3)]]) "ui"
    = Raise (AttributeError "lower").
Proof. repeat split; reflexivity. Qed.

Lemma component_unusable_fails_witness :
  raises (filtered_data unlabelled_first "ui")
  ∧ ∃ e, process_selected_component chat_ok unlabelled_first "ui" "" [] =
           (Ok PyNone, [] ++ [StError error_prefix e]).
Proof.
  apply (component_unusable_fails chat_ok _
           (PyDict [("Comment", PyList [comment "lost"])]) "ui" "" []).
  - apply list_elem_of_here.
  - eexists. split; reflexivity.
Defined.

(** C5 as stated fails: the entry without a [comment] key is accepted in
    silence (an empty text goes into the payload, nothing is reported), and
    a [Comment] that is not a sequence is reported exactly as a failure of
    the summarizer is: same prefix, same [None]. *)
Lemma malformed_comment_not_reported :
  process_selected_component chat_ok keyless_entry "ui" "extra" []
    = (Ok (PyDict [("Component", PyStr "ui"); ("Analysis", PyStr "summary")]),
       [ChatCompletion (summarize_request ("" +:+ Str.nl +:+ Str.nl +:+ "extra"))])
  ∧ process_selected_component chat_ok numeric_comment "ui" "extra" []
    = (Ok PyNone, [StError error_prefix TypeError])
  ∧ process_selected_component chat_down two_lines "ui" "extra" []
    = (Ok PyNone,
       [ChatCompletion
          (summarize_request
             ("line1" +:+ Str.nl +:+ "line2" +:+ Str.nl +:+ Str.nl +:+ "extra"));
        StError error_prefix (CapabilityError "timeout")]).
Proof. repeat split; reflexivity. Qed.

Lemma malformed_comment_handling_witness :
  append_comments [PyDict [("text", PyStr "x")]] [] = Ok [PyStr ""]
  ∧ (∃ e, process_selected_component chat_ok numeric_comment "ui" "extra" [] =
            (Ok PyNone, [] ++ [StError error_prefix e]))
  ∧ process_selected_component chat_down two_lines "ui" "extra" [] =
      (Ok PyNone,
       [ChatCompletion
          (summarize_request
             ("line1" +:+ Str.nl +:+ "line2" +:+ Str.nl +:+ Str.nl +:+ "extra"))]
       ++ [StError error_prefix (CapabilityError "timeout")]).
Proof.
  destruct (malformed_comment_handling chat_ok) as (Hkey & Hseq & _).
  destruct (malformed_comment_handling chat_down) as (_ & _ & Hsame).
  split; [|split].
  - apply (Hkey [("text", PyStr "x")] [] []). reflexivity.
  - apply (Hseq _ (PyDict [("Component", PyStr "UI"); ("Comment", PyInt 5)])
             "ui" "extra" []).
    + apply list_elem_of_further, list_elem_of_here.
    + reflexivity.
    + eexists _, (PyInt 5). repeat split.
  - apply (Hsame two_lines "ui" "extra" []). reflexivity.
Defined.

Lemma process_never_raises_witness :
  ∃ v tr',
    process_selected_component chat_down two_lines "ui" "extra" [] = (Ok v, tr')
    ∧ (v = PyNone
       ∨ ∃ analysis,
           v = PyDict [("Component", PyStr "ui"); ("Analysis", analysis)])
    ∧ (∀ e tr1, process_body chat_down two_lines "ui" "extra" [] = (Raise e, tr1) →
         v = PyNone ∧ tr' = tr1 ++ [StError error_prefix e])
    ∧ (aggregated_comments two_lines "ui" = Ok [] → v = PyNone ∧ tr' = []).
Proof. exact (process_never_raises chat_down two_lines "ui" "extra" []). Defined.

(** Records labelled [UI] and [ui] fall into one group. *)
Example ui_grouping :
  process_selected_component chat_ok
    (PyList [record "UI" [comment "slow"]; record "ui" [comment "crash"]])
    "ui" "" []
  = (Ok (PyDict [("Component", PyStr "ui"); ("Analysis", PyStr "summary")]),
     [ChatCompletion
        (summarize_request ("slow" +:+ Str.nl +:+ "crash" +:+ Str.nl +:+ Str.nl))]).
Proof. reflexivity. Qed.

(** A failure and the no-data case give the caller the same value. *)
Example failure_looks_like_no_data :
  (process_selected_component chat_down two_lines "ui" "extra" []).1 = Ok PyNone
  ∧ (process_selected_component chat_ok ui_and_db "ui" "extra" []).1 = Ok PyNone
  ∧ (process_selected_component chat_ok unlabelled_first "ui" "extra" []).1 = Ok PyNone.
Proof. repeat split; reflexivity. Qed.

(** ** The comment formatter *)

Section Formatter.

Lemma format_line_comment i c t :
  is_comment c t → format_line i c = Ok (numbered_line i t).
Proof. intros (d & -> & Hd). unfold format_line. simpl. by rewrite Hd. Qed.

Lemma format_loop_lines cs ts i acc :
  Forall2 is_comment cs ts →
  format_loop i cs acc = Ok (acc ++ imap (λ k t, numbered_line (i + k) t) ts).
Proof.
  intros Hcs. revert i acc.
  induction Hcs as [|c t cs ts Hc _ IH]; intros i acc; simpl.
  - by rewrite app_nil_r.
  - rewrite (format_line_comment _ _ _ Hc). simpl. rewrite IH.
    rewrite <- app_assoc. simpl. rewrite Nat.add_0_r.
    do 3 f_equal. apply imap_ext. intros k x _. simpl. f_equal. lia.
Qed.

Lemma display_text_no_newline t : Str.mem Str.nl_char (display_text t) = false.
Proof.
  unfold display_text.
  assert (Str.mem Str.nl_char (Str.replace Str.nl_char Str.space_char t) = false)
    as Hc by (by apply replace_removes).
  destruct (_ <? _)%nat; [|done].
  by rewrite mem_append, mem_prefix.
Qed.

(** C6. For every sequence of comments the formatter gives one line per
    comment, in input order, numbered from 1 as [<index>. <text>], the
    lines joined by newlines; the text of a line holds no newline (each
    one has become a space). The empty sequence gives the empty string,
    and the comments [a], [b] give [1. a\n2. b]. *)
Theorem format_comments_lines (cs : list pyval) (ts : list string) :
  Forall2 is_comment cs ts →
  format_comments (PyList cs)
    = Ok (Str.join Str.nl (imap (λ k t, numbered_line (S k) t) ts))
  ∧ Forall (λ t, Str.mem Str.nl_char (display_text t) = false) ts
  ∧ format_comments (PyList []) = Ok ""
  ∧ format_comments
      (PyList [PyDict [("comment", PyStr "a")]; PyDict [("comment", PyStr "b")]])
    = Ok ("1. a" +:+ Str.nl +:+ "2. b").
Proof.
  intros Hcs. repeat split; try reflexivity.
  - unfold format_comments. simpl.
    by rewrite (format_loop_lines _ _ _ _ Hcs).
  - apply Forall_forall. intros t _. apply display_text_no_newline.
Qed.

Lemma format_comments_lines_witness :
  format_comments
    (PyList [PyDict [("comment", PyStr ("x" +:+ Str.nl +:+ "y"))];
             PyDict [("author", PyStr "me"); ("comment", PyStr "b")]])
  = Ok ("1. x y" +:+ Str.nl +:+ "2. b").
Proof.
  apply (format_comments_lines
           [PyDict [("comment", PyStr ("x" +:+ Str.nl +:+ "y"))];
            PyDict [("author", PyStr "me"); ("comment", PyStr "b")]]
           ["x" +:+ Str.nl +:+ "y"; "b"]).
  repeat constructor; eexists; split; reflexivity.
Defined.

(** C7. A comment whose text, newlines turned into spaces, is longer
    than 100 characters is shown as its first 97 characters followed by
    [...], 100 characters in all; a text of 100 characters or fewer is
    shown whole. In particular a text of 150 characters without newline
    comes out as its first 97 characters and the ellipsis. *)
Theorem format_line_truncates (i : nat) (c : pyval) (t : string) :
  is_comment c t →
  let collapsed := Str.replace Str.nl_char Str.space_char t in
  (100 < String.length collapsed →
     format_line i c
       = Ok (Str.of_nat i +:+ ". " +:+ Str.prefix 97 collapsed +:+ "...")
     ∧ String.length (Str.prefix 97 collapsed) = 97
     ∧ String.length (Str.prefix 97 collapsed +:+ "...") = 100
     ∧ ∃ rest, collapsed = Str.prefix 97 collapsed +:+ rest)
  ∧ (String.length collapsed ≤ 100 →
     format_line i c = Ok (Str.of_nat i +:+ ". " +:+ collapsed))
  ∧ (String.length t = 150 → Str.mem Str.nl_char t = false →
     format_comments (PyList [c]) = Ok ("1. " +:+ Str.prefix 97 t +:+ "...")
     ∧ String.length (Str.prefix 97 t +:+ "...") = 100).
Proof.
  intros Hc collapsed.
  rewrite (format_line_comment _ _ _ Hc).
  unfold numbered_line, display_text. fold collapsed.
  split; [|split].
  - intros Hlen. apply Nat.ltb_lt in Hlen as Hlt. rewrite Hlt.
    split; [done|].
    assert (String.length (Str.prefix 97 collapsed) = 97) as Hp
      by (apply prefix_length; lia).
    split; [done|]. split; [|apply prefix_is_prefix].
    rewrite append_length, Hp. reflexivity.
  - intros Hlen. apply Nat.ltb_ge in Hlen as Hge. by rewrite Hge.
  - intros Hlen Hnl.
    unfold format_comments. simpl.
    rewrite (format_line_comment _ _ _ Hc). simpl.
    unfold numbered_line, display_text.
    rewrite (replace_absent _ _ _ Hnl), Hlen. simpl.
    split; [done|].
    rewrite append_length, prefix_length; [reflexivity|lia].
Qed.

End Formatter.

Lemma format_line_truncates_witness :
  (format_line 7 (comment (digits150 +:+ Str.nl))
     = Ok ("7. " +:+ Str.prefix 97 (digits150 +:+ " ") +:+ "...")
   ∧ String.length (Str.prefix 97 (digits150 +:+ " ")) = 97
   ∧ String.length (Str.prefix 97 (digits150 +:+ " ") +:+ "...") = 100
   ∧ ∃ rest, digits150 +:+ " " = Str.prefix 97 (digits150 +:+ " ") +:+ rest)
  ∧ format_line 2 (comment "short") = Ok "2. short"
  ∧ format_comments (PyList [comment digits150])
      = Ok ("1. " +:+ Str.prefix 97 digits150 +:+ "...")
  ∧ String.length (Str.prefix 97 digits150 +:+ "...") = 100.
Proof.
  split; [|split].
  - refine (proj1 (format_line_truncates 7 (comment (digits150 +:+ Str.nl))
                     (digits150 +:+ Str.nl) _) _).
    + eexists; split; reflexivity.
    + vm_compute. lia.
  - refine (proj1 (proj2 (format_line_truncates 2 (comment "short") "short" _)) _).
    + eexists; split; reflexivity.
    + vm_compute. lia.
  - refine (proj2 (proj2 (format_line_truncates 1 (comment digits150) digits150 _)) _ _).
    + eexists; split; reflexivity.
    + reflexivity.
    + reflexivity.
Defined.

(** ** The field resolver *)

Section Resolver.

Implicit Types (R : dict) (f key : string).

Lemma lookup_Some_key R key v : Py.lookup key R = Some v → key ∈ Py.keys R.
Proof.
  induction R as [|[k x] R IH]; simpl; [done|].
  destruct (String.eqb_spec k key) as [->|_].
  - intros _. apply list_elem_of_here.
  - intros H. apply list_elem_of_further. by apply IH.
Qed.

Lemma key_lookup_Some R key : key ∈ Py.keys R → is_Some (Py.lookup key R).
Proof.
  induction R as [|[k x] R IH]; simpl.
  - by intros ?%elem_of_nil.
  - destruct (String.eqb_spec k key) as [->|Hne]; [by eexists|].
    intros [->|Hin]%elem_of_cons; [done|]. by apply IH.
Qed.

Lemma scan_keys_find keys f R :
  scan_keys keys f R =
    match List.find (ci_match f) keys with
    | Some key => Py.getitem (PyDict R) key
    | None => Ok (PyStr "N/A")
    end.
Proof.
  induction keys as [|key keys IH]; simpl; [done|].
  unfold ci_match at 1. by destruct (String.eqb _ _).
Qed.

Lemma ci_match_lower f1 f2 key :
  Str.lower f1 = Str.lower f2 → ci_match f1 key = ci_match f2 key.
Proof. unfold ci_match. by intros ->. Qed.

Lemma scan_keys_lower keys f1 f2 R :
  Str.lower f1 = Str.lower f2 → scan_keys keys f1 R = scan_keys keys f2 R.
Proof.
  intros Hl. induction keys as [|key keys IH]; simpl; [done|].
  by rewrite Hl, IH.
Qed.

(** The scan finds the one matching key. *)
Lemma scan_keys_unique f key R v :
  ci_unique f R → Str.lower key = Str.lower f →
  Py.lookup key R = Some v →
  scan_keys (Py.keys R) f R = Ok v.
Proof.
  intros Huniq Hkey Hv. rewrite scan_keys_find.
  pose proof (lookup_Some_key _ _ _ Hv) as Hin.
  destruct (List.find (ci_match f) (Py.keys R)) as [k|] eqn:Hfind.
  - apply find_some in Hfind as [Hk Hm].
    apply String.eqb_eq in Hm. apply list_elem_of_In in Hk.
    rewrite (Huniq k key Hk Hin Hm Hkey). simpl. by rewrite Hv.
  - apply list_elem_of_In in Hin.
    pose proof (find_none _ _ Hfind _ Hin) as Hm.
    unfold ci_match in Hm. rewrite Hkey, String.eqb_refl in Hm. done.
Qed.

Lemma normalize_exact f R v :
  Py.lookup f R = Some v → normalize_field_name f R = Ok v.
Proof.
  intros Hv. unfold normalize_field_name, Py.contains. simpl. by rewrite Hv.
Qed.

Lemma normalize_miss f R :
  Py.lookup f R = None →
  normalize_field_name f R = scan_keys (Py.keys R) f R.
Proof.
  intros Hv. unfold normalize_field_name, Py.contains. by rewrite Hv.
Qed.

Lemma normalize_lower f1 f2 R :
  Str.lower f1 = Str.lower f2 → ci_unique f1 R →
  normalize_field_name f1 R = normalize_field_name f2 R.
Proof.
  intros Hl Huniq.
  assert (ci_unique f2 R) as Huniq2.
  { unfold ci_unique in *. rewrite <- Hl. done. }
  destruct (Py.lookup f1 R) as [v1|] eqn:H1, (Py.lookup f2 R) as [v2|] eqn:H2.
  - rewrite (Huniq f1 f2) in H1 |- *;
      eauto using lookup_Some_key. 
  - rewrite (normalize_exact _ _ _ H1), (normalize_miss _ _ H2).
    symmetry. by apply (scan_keys_unique f2 f1).
  - rewrite (normalize_miss _ _ H1), (normalize_exact _ _ _ H2).
    by apply (scan_keys_unique f1 f2).
  - rewrite (normalize_miss _ _ H1), (normalize_miss _ _ H2).
    by apply scan_keys_lower.
Qed.

(** C8, as amended. For every record and field name the resolver returns
    the value under the exactly matching key if there is one, otherwise the
    value under the first key that matches up to case, otherwise ["N/A"],
    and it never raises. For every record in which at most one key matches
    [component] up to case, resolving [component], [COMPONENT] and
    [Component] gives the same value. *)
Theorem normalize_field_name_resolves :
  (∀ f R,
     match Py.lookup f R with
     | Some v => normalize_field_name f R = Ok v
     | None =>
         match List.find (ci_match f) (Py.keys R) with
         | Some key =>
             ∃ v, Py.lookup key R = Some v ∧ normalize_field_name f R = Ok v
         | None => normalize_field_name f R = Ok (PyStr "N/A")
         end
     end)
  ∧ (∀ f R, ¬ raises (normalize_field_name f R))
  ∧ (∀ R, ci_unique "component" R →
       normalize_field_name "component" R = normalize_field_name "COMPONENT" R
       ∧ normalize_field_name "COMPONENT" R = normalize_field_name "Component" R).
Proof.
  assert (∀ f R,
     match Py.lookup f R with
     | Some v => normalize_field_name f R = Ok v
     | None =>
         match List.find (ci_match f) (Py.keys R) with
         | Some key =>
             ∃ v, Py.lookup key R = Some v ∧ normalize_field_name f R = Ok v
         | None => normalize_field_name f R = Ok (PyStr "N/A")
         end
     end) as Hres.
  { intros f R. destruct (Py.lookup f R) as [v|] eqn:Hv.
    - by apply normalize_exact.
    - rewrite (normalize_miss _ _ Hv), scan_keys_find.
      destruct (List.find (ci_match f) (Py.keys R)) as [key|] eqn:Hfind; [|done].
      apply find_some in Hfind as [Hk _]. apply list_elem_of_In in Hk.
      destruct (key_lookup_Some _ _ Hk) as [v' Hv'].
      exists v'. simpl. by rewrite Hv'. }
  split; [exact Hres|]. split.
  - intros f R. specialize (Hres f R).
    destruct (Py.lookup f R); [rewrite Hres; by intros []|].
    destruct (List.find _ _); [|rewrite Hres; by intros []].
    destruct Hres as (v & _ & ->). by intros [].
  - intros R Huniq. split.
    + by apply normalize_lower.
    + apply normalize_lower; [done|]. exact Huniq.
Qed.

Lemma normalize_field_name_resolves_witness :
  normalize_field_name "component" [("JiraID", PyStr "J-1"); ("Component", PyStr "UI")]
    = normalize_field_name "COMPONENT" [("JiraID", PyStr "J-1"); ("Component", PyStr "UI")]
  ∧ normalize_field_name "COMPONENT" [("JiraID", PyStr "J-1"); ("Component", PyStr "UI")]
    = normalize_field_name "Component" [("JiraID", PyStr "J-1"); ("Component", PyStr "UI")].
Proof.
  apply (proj2 (proj2 normalize_field_name_resolves)).
  intros k1 k2 H1 H2 Hl1 Hl2.
  repeat (apply elem_of_cons in H1 as [->|H1]);
    repeat (apply elem_of_cons in H2 as [->|H2]);
    try done; by apply elem_of_nil in H1 || by apply elem_of_nil in H2.
Defined.

(** C8 as stated fails on a record holding both [Component] and
    [component]: the exact match wins for each spelling. *)
Lemma normalize_field_name_collision :
  normalize_field_name "component"
    [("Component", PyStr "A"); ("component", PyStr "B")] = Ok (PyStr "B")
  ∧ normalize_field_name "COMPONENT"
      [("Component", PyStr "A"); ("component", PyStr "B")] = Ok (PyStr "A")
  ∧ normalize_field_name "Component"
      [("Component", PyStr "A"); ("component", PyStr "B")] = Ok (PyStr "A").
Proof. repeat split; reflexivity. Qed.

End Resolver.

(** * Further properties of the code *)

(** ** The aggregator: requests, failures and the filter *)

Section AggregatorShape.

Variable chat : chat_request → result pyval.

Implicit Types (items : list pyval) (sel extra : string) (tr : trace).

Lemma strings_not_all l v :
  v ∈ l → (∀ s, v ≠ PyStr s) → Py.strings l = Raise TypeError.
Proof.
  intros Hin Hns. induction Hin as [v l|v w l _ IH]; simpl.
  - destruct v; try done. by destruct (Hns s).
  - destruct w; try done. by rewrite IH.
Qed.

(** X1. The four ways a call can end. Nothing: no text was gathered. One
    reported error: the body failed before the summarizer was reached. One
    request and the dict: the summarizer answered. One request followed by
    one reported error: the summarizer failed. So there is never a second
    request, and the earlier trace is never touched. *)
Theorem process_outcomes data sel extra tr :
  process_selected_component chat data sel extra tr = (Ok PyNone, tr)
  ∨ (∃ e, process_selected_component chat data sel extra tr
            = (Ok PyNone, tr ++ [StError error_prefix e]))
  ∨ (∃ payload analysis,
       process_selected_component chat data sel extra tr
       = (Ok (PyDict [("Component", PyStr sel); ("Analysis", analysis)]),
          tr ++ [ChatCompletion (summarize_request payload)]))
  ∨ (∃ payload e,
       process_selected_component chat data sel extra tr
       = (Ok PyNone,
          tr ++ [ChatCompletion (summarize_request payload);
                 StError error_prefix e])).
Proof.
  rewrite process_handles.
  unfold process_body, summarize_with_llm, io_bind, io_lift, io_ret, io_emit.
  destruct (aggregated_comments data sel) as [[|x l]|e]; [by left| |right; left; by exists e].
  destruct (Py.join Str.nl (x :: l)) as [text|e]; [|right; left; by exists e].
  destruct (chat _) as [analysis|e].
  - right; right; left. by eexists _, analysis.
  - right; right; right. rewrite <- app_assoc. by eexists _, e.
Qed.

(** X2. For every list of well-formed records with at least one matching
    comment text, the summarizer receives the texts joined by newlines,
    then a blank line, then the extra text (also when the extra text is
    empty), and the dict returned names the component as it was passed
    in. *)
Theorem payload_general items rvs sel extra tr text texts :
  Forall2 is_record items rvs →
  matching_texts sel rvs = text :: texts →
  let payload :=
    (Str.join Str.nl (text :: texts) +:+ (Str.nl +:+ Str.nl)) +:+ extra in
  process_selected_component chat (PyList items) sel extra tr =
    match chat (summarize_request payload) with
    | Ok analysis =>
        (Ok (PyDict [("Component", PyStr sel); ("Analysis", analysis)]),
         tr ++ [ChatCompletion (summarize_request payload)])
    | Raise e =>
        (Ok PyNone,
         tr ++ [ChatCompletion (summarize_request payload);
                StError error_prefix e])
    end.
Proof.
  intros Hrs Htexts. apply process_payload.
  by rewrite (aggregated_comments_texts _ _ _ Hrs), Htexts.
Qed.

(** X3. When one of the gathered comment texts is not a string (a number,
    [null], a list), [join] fails: a [TypeError] is reported, [None] is
    returned and the summarizer is not called, whatever the other texts
    are. *)
Theorem non_string_text_fails data sel extra tr gathered v :
  aggregated_comments data sel = Ok gathered →
  v ∈ gathered → (∀ t, v ≠ PyStr t) →
  process_selected_component chat data sel extra tr
    = (Ok PyNone, tr ++ [StError error_prefix TypeError]).
Proof.
  intros Hagg Hin Hns. rewrite process_handles.
  unfold process_body, io_bind, io_lift. rewrite Hagg.
  destruct gathered as [|x l]; [by apply elem_of_nil in Hin|].
  unfold Py.join. by rewrite (strings_not_all _ _ Hin Hns).
Qed.

End AggregatorShape.

Lemma payload_general_witness :
  process_selected_component chat_ok
    (PyList [record "UI" [comment "slow"]; record "ui" [comment "crash"]])
    "Ui" "" []
  = (Ok (PyDict [("Component", PyStr "Ui"); ("Analysis", PyStr "summary")]),
     [ChatCompletion
        (summarize_request ("slow" +:+ Str.nl +:+ "crash" +:+ Str.nl +:+ Str.nl))]).
Proof.
  apply (payload_general chat_ok _
           [ {| rv_component := "UI"; rv_texts := ["slow"] |};
             {| rv_component := "ui"; rv_texts := ["crash"] |} ]
           "Ui" "" [] "slow" ["crash"]).
  - repeat constructor; eexists _, _; repeat split;
      repeat constructor; eexists; split; reflexivity.
  - reflexivity.
Defined.

Lemma non_string_text_fails_witness :
  process_selected_component chat_ok
    (PyList [record "ui" [comment "slow"; PyDict [("comment", PyInt 5)]]])
    "ui" "extra" []
  = (Ok PyNone, [] ++ [StError error_prefix TypeError]).
Proof.
  apply (non_string_text_fails chat_ok _ "ui" "extra" []
           [PyStr "slow"; PyInt 5] (PyInt 5)).
  - reflexivity.
  - apply list_elem_of_further, list_elem_of_here.
  - done.
Defined.

(** ** The index and the filter together *)

Section Groups.

Implicit Types (items kept : list pyval) (sel : string).

Lemma component_names_keys items :
  Forall (λ item, is_Some (component_of item)) items →
  component_names items = Ok (component_key <$> items).
Proof.
  induction 1 as [|item items [c Hc] _ IH]; simpl; [done|].
  rewrite (component_of_Some _ _ Hc), IH. simpl.
  unfold component_key. by rewrite Hc.
Qed.

Lemma filter_items_keys items sel :
  Forall (λ item, is_Some (component_of item)) items →
  filter_items items sel =
    Ok (List.filter (λ item, String.eqb (component_key item) (Str.lower sel)) items).
Proof.
  induction 1 as [|item items [c Hc] _ IH]; simpl; [done|].
  rewrite (component_of_Some _ _ Hc), IH. simpl.
  assert (component_key item = Str.lower c) as Hk
    by (unfold component_key; by rewrite Hc).
  by rewrite Hk.
Qed.

(** The first record the two loops stumble on is the same one. *)
Lemma names_filter_step item :
  (∃ c, component_of item = Some c
        ∧ (component <- Py.getitem item "Component" ;; Py.lower component)
          = Ok (Str.lower c))
  ∨ (component_of item = None
     ∧ ∃ e, (component <- Py.getitem item "Component" ;; Py.lower component)
            = Raise e).
Proof.
  destruct item as [| | | | |?|d]; simpl; try (right; split; [done|]; by eexists).
  destruct (Py.lookup "Component" d) as [[]|]; simpl;
    try (right; split; [done|]; by eexists).
  left. by eexists.
Qed.

Lemma names_filter_agree items sel :
  (Forall (λ item, is_Some (component_of item)) items)
  ∨ (∃ e, component_names items = Raise e ∧ filter_items items sel = Raise e).
Proof.
  induction items as [|item items IH]; [by left|]. simpl.
  destruct (names_filter_step item) as [(c & Hc & Hstep)|(Hc & e & Hstep)].
  - destruct (Py.getitem item "Component") as [v|]; simpl in *; [|done].
    rewrite Hstep. simpl.
    destruct IH as [Hall|(e & -> & ->)].
    + left. constructor; [by eexists|done].
    + right. by exists e.
  - right. exists e.
    destruct (Py.getitem item "Component") as [v|]; simpl in *.
    + by rewrite Hstep.
    + by simplify_eq.
Qed.

(** X4. The component index and the filter fail on the same inputs and
    with the same exception: whenever the index of line 102 has been built,
    the filter of line 110 cannot fail, whatever component is selected. *)
Theorem index_filter_same_failure (json_data : pyval) sel e :
  components json_data = Raise e ↔ filtered_data json_data sel = Raise e.
Proof.
  unfold components, filtered_data.
  destruct (Py.iter json_data) as [items|e']; simpl;
    [|split; by intros [= ->]].
  destruct (names_filter_agree items sel) as [Hall|(e' & Hn & Hf)].
  - rewrite (component_names_keys _ Hall), (filter_items_keys _ _ Hall).
    simpl. split; intros [=].
  - rewrite Hn, Hf. simpl. split; by intros [= ->].
Qed.

(** X5. On a list, the filter succeeds exactly when every element holds a
    string under [Component]; one element that does not makes it fail for
    every selection, even one that would not have matched it. *)
Theorem filter_succeeds_iff items sel :
  (∃ kept, filtered_data (PyList items) sel = Ok kept)
  ↔ Forall (λ item, is_Some (component_of item)) items.
Proof.
  unfold filtered_data. simpl. split.
  - intros [kept Hkept].
    destruct (names_filter_agree items sel) as [Hall|(e & _ & Hf)]; [done|].
    congruence.
  - intros Hall. rewrite (filter_items_keys _ _ Hall). by eexists.
Qed.

Lemma components_keys (json_data : pyval) names :
  components json_data = Ok names →
  ∃ items, Py.iter json_data = Ok items
    ∧ Forall (λ item, is_Some (component_of item)) items
    ∧ names = merge_sort Str.le
                (elements (list_to_set (component_key <$> items) : gset string)).
Proof.
  unfold components.
  destruct (Py.iter json_data) as [items|]; simpl; [|done].
  destruct (names_filter_agree items "") as [Hall|(e & Hn & _)].
  - rewrite (component_names_keys _ Hall). simpl. intros [= <-]. eauto.
  - by rewrite Hn.
Qed.

Lemma elem_of_components items x :
  x ∈ merge_sort Str.le
        (elements (list_to_set (component_key <$> items) : gset string))
  ↔ ∃ item, item ∈ items ∧ x = component_key item.
Proof.
  rewrite merge_sort_Permutation, elem_of_elements, elem_of_list_to_set,
    list_elem_of_fmap.
  split; intros (item & ? & ?); by exists item.
Qed.

Lemma component_key_lower item :
  Str.lower (component_key item) = component_key item.
Proof. unfold component_key. apply lower_idemp. Qed.

Lemma filter_offered_nonempty (json_data : pyval) names x :
  components json_data = Ok names → x ∈ names →
  ∃ item kept, filtered_data json_data x = Ok (item :: kept).
Proof.
  intros (items & Hiter & Hall & ->)%components_keys
         (item & Hin & ->)%elem_of_components.
  unfold filtered_data. rewrite Hiter. simpl.
  rewrite (filter_items_keys _ _ Hall), component_key_lower.
  destruct (List.filter _ items) as [|first kept] eqn:Hf; [|by eexists _, _].
  assert (item ∈ List.filter
            (λ item', String.eqb (component_key item') (component_key item)) items)
    as Hmem.
  { apply list_elem_of_In, filter_In. split; [by apply list_elem_of_In|].
    apply String.eqb_refl. }
  rewrite Hf in Hmem. by apply elem_of_nil in Hmem.
Qed.

(** X6. Every component the index offers selects at least one record: with
    a selection taken from the index, the filter never comes back empty. *)
Theorem offered_component_has_records (json_data : pyval) names x :
  components json_data = Ok names → x ∈ names →
  ∃ item kept, filtered_data json_data x = Ok (item :: kept).
Proof.
  intros (items & Hiter & Hall & ->)%components_keys
         (item & Hin & ->)%elem_of_components.
  unfold filtered_data. rewrite Hiter. simpl.
  rewrite (filter_items_keys _ _ Hall), component_key_lower.
  destruct (List.filter _ items) as [|first kept] eqn:Hf; [|by eexists _, _].
  assert (item ∈ List.filter
            (λ item', String.eqb (component_key item') (component_key item)) items)
    as Hmem.
  { apply list_elem_of_In, filter_In. split; [by apply list_elem_of_In|].
    apply String.eqb_refl. }
  rewrite Hf in Hmem. by apply elem_of_nil in Hmem.
Qed.

Lemma concat_insert_one (names : list string)
    (belongs : string → pyval → bool) (group : string → list pyval) item n :
  NoDup names → n ∈ names →
  (∀ n', n' ∈ names → belongs n' item = true ↔ n' = n) →
  concat ((λ n', if belongs n' item then item :: group n' else group n') <$> names)
  ≡ₚ item :: concat (group <$> names).
Proof.
  intros Hnd Hin Hone.
  induction names as [|m names IH]; [by apply elem_of_nil in Hin|].
  apply NoDup_cons in Hnd as [Hm Hnd]. rewrite !fmap_cons. simpl.
  destruct (decide (m = n)) as [->|Hne].
  - rewrite (proj2 (Hone n (list_elem_of_here _ _)) eq_refl). simpl.
    assert ((λ n', if belongs n' item then item :: group n' else group n') <$> names
            = group <$> names) as ->; [|done].
    apply list_fmap_ext. intros i n' Hn'.
    apply list_elem_of_lookup_2 in Hn'.
    destruct (belongs n' item) eqn:Hb; [|done].
    apply Hone in Hb; [|by apply list_elem_of_further]. by subst.
  - destruct (belongs m item) eqn:Hb.
    { apply Hone in Hb; [done|apply list_elem_of_here]. }
    rewrite IH; [by rewrite Permutation_middle|done| |].
    + apply elem_of_cons in Hin as [?|?]; done.
    + intros n' Hn'. apply Hone. by apply list_elem_of_further.
Qed.

Lemma groups_partition (names : list string) items :
  NoDup names →
  (∀ n, n ∈ names → Str.lower n = n) →
  (∀ item, item ∈ items → component_key item ∈ names) →
  concat ((λ n, List.filter
                  (λ item, String.eqb (component_key item) (Str.lower n)) items)
          <$> names)
  ≡ₚ items.
Proof.
  intros Hnd Hlow Hkeys.
  induction items as [|item items IH]; simpl.
  - clear. induction names as [|n names IHn]; [done|]. rewrite fmap_cons. simpl.
    apply IHn.
  - rewrite (concat_insert_one names
               (λ n item, String.eqb (component_key item) (Str.lower n))
               _ item (component_key item)); first last.
    + intros n Hn. rewrite String.eqb_eq, (Hlow n Hn). naive_solver.
    + apply Hkeys, list_elem_of_here.
    + done.
    + f_equiv. apply IH. intros item' Hin. by apply Hkeys, list_elem_of_further.
Qed.

(** X7. The groups of the offered components partition the records: taking
    the filter for each component of the index, one after the other, gives
    every record of the input exactly once. *)
Theorem groups_partition_records (json_data : pyval) names items :
  components json_data = Ok names → Py.iter json_data = Ok items →
  ∃ groups,
    Forall2 (λ n group, filtered_data json_data n = Ok group) names groups
    ∧ concat groups ≡ₚ items.
Proof.
  intros (items' & Hiter & Hall & ->)%components_keys Hiter'.
  assert (items' = items) as -> by congruence.
  set (names := merge_sort Str.le _).
  exists ((λ n, List.filter
                  (λ item, String.eqb (component_key item) (Str.lower n)) items)
          <$> names).
  split.
  - apply Forall2_fmap_r, Forall_Forall2_diag, Forall_forall. intros n _.
    unfold filtered_data. rewrite Hiter. simpl.
    by rewrite (filter_items_keys _ _ Hall).
  - apply groups_partition.
    + unfold names. rewrite merge_sort_Permutation. apply NoDup_elements.
    + intros n (item & _ & ->)%elem_of_components. apply component_key_lower.
    + intros item Hin. apply elem_of_components. by exists item.
Qed.

(** X8. The index does not depend on the order of the records, and it
    never offers more components than there are records. *)
Theorem components_order_irrelevant items items' names :
  components (PyList items) = Ok names → items ≡ₚ items' →
  components (PyList items') = Ok names ∧ length names ≤ length items.
Proof.
  intros (its & Hiter & Hall & ->)%components_keys Hperm.
  simpl in Hiter. assert (its = items) as -> by congruence.
  split.
  - unfold components. simpl.
    assert (Forall (λ item, is_Some (component_of item)) items') as Hall'
      by (by rewrite <- Hperm).
    rewrite (component_names_keys _ Hall'). simpl. do 3 f_equal.
    apply list_to_set_perm_L. by rewrite Hperm.
  - rewrite merge_sort_Permutation.
    rewrite <- (length_fmap component_key items).
    apply submseteq_length, NoDup_submseteq; [apply NoDup_elements|].
    intros x. by rewrite elem_of_elements, elem_of_list_to_set.
Qed.

Lemma filter_items_step item items sel kept :
  filter_items (item :: items) sel = Ok kept →
  ∃ c kept', component_of item = Some c
    ∧ filter_items items sel = Ok kept'
    ∧ kept = if String.eqb (Str.lower c) (Str.lower sel)
             then item :: kept' else kept'.
Proof.
  simpl. destruct (names_filter_step item) as [(c & Hc & Hstep)|(Hc & e & Hstep)].
  - destruct (Py.getitem item "Component") as [v|]; simpl in *; [|done].
    rewrite Hstep. simpl.
    destruct (filter_items items sel) as [kept'|]; simpl; [|done].
    intros [= <-]. by eexists _, _.
  - destruct (Py.getitem item "Component") as [v|]; simpl in *; [|done].
    by rewrite Hstep.
Qed.

Lemma aggregate_item_other item sel c acc :
  component_of item = Some c →
  String.eqb (Str.lower c) (Str.lower sel) = false →
  aggregate_item item sel acc = Ok acc.
Proof.
  intros Hc Hne. unfold aggregate_item.
  rewrite (component_of_Some _ _ Hc). simpl. by rewrite Hne.
Qed.

Lemma aggregate_items_filtered items sel kept acc :
  filter_items items sel = Ok kept →
  aggregate_items kept sel acc = aggregate_items items sel acc
  ∧ filter_items kept sel = Ok kept.
Proof.
  revert kept acc. induction items as [|item items IH]; intros kept acc.
  - by intros [= <-].
  - intros (c & kept' & Hc & Hrest & ->)%filter_items_step.
    destruct (String.eqb _ _) eqn:Hm; simpl.
    + split.
      * destruct (aggregate_item item sel acc); simpl; [|done].
        by apply IH.
      * rewrite (component_of_Some _ _ Hc). simpl.
        rewrite (proj2 (IH _ acc Hrest)). simpl. by rewrite Hm.
    + rewrite (aggregate_item_other _ _ _ _ Hc Hm). simpl. by apply IH.
Qed.

(** X9. Filtering first changes nothing downstream: the filtered list is
    its own filter, and the aggregator run on it does exactly what it does on
    the whole input, failures included. *)
Theorem aggregate_after_filter (json_data : pyval) sel kept :
  filtered_data json_data sel = Ok kept →
  filtered_data (PyList kept) sel = Ok kept
  ∧ aggregated_comments (PyList kept) sel = aggregated_comments json_data sel
  ∧ ∀ chat extra tr,
      process_selected_component chat (PyList kept) sel extra tr
      = process_selected_component chat json_data sel extra tr.
Proof.
  unfold filtered_data. intros Hf.
  destruct (Py.iter json_data) as [items|] eqn:Hiter; simpl in *; [|done].
  assert (aggregated_comments (PyList kept) sel = aggregated_comments json_data sel)
    as Hagg.
  { unfold aggregated_comments. rewrite Hiter. simpl.
    by apply aggregate_items_filtered. }
  split; [by apply (aggregate_items_filtered items sel kept [])|].
  split; [done|].
  intros chat extra tr.
  unfold process_selected_component, process_body. by rewrite Hagg.
Qed.

(** X10. The selection is read up to case: two selections that differ
    only by case filter the same records, gather the same texts and send the
    same request. *)
Theorem selection_case_insensitive (json_data : pyval) sel sel' :
  Str.lower sel = Str.lower sel' →
  filtered_data json_data sel = filtered_data json_data sel'
  ∧ aggregated_comments json_data sel = aggregated_comments json_data sel'
  ∧ ∀ chat extra tr,
      (process_selected_component chat json_data sel extra tr).2
      = (process_selected_component chat json_data sel' extra tr).2.
Proof.
  intros Hl.
  assert (∀ items, filter_items items sel = filter_items items sel') as Hf.
  { induction items as [|item items IH]; simpl; [done|]. by rewrite IH, Hl. }
  assert (∀ items acc, aggregate_items items sel acc = aggregate_items items sel' acc)
    as Ha.
  { induction items as [|item items IH]; intros acc; simpl; [done|].
    unfold aggregate_item. rewrite Hl.
    destruct (_ <- Py.getitem item "Component" ;; _); simpl; [apply IH|done]. }
  assert (aggregated_comments json_data sel = aggregated_comments json_data sel')
    as Hagg.
  { unfold aggregated_comments. destruct (Py.iter json_data); simpl; [apply Ha|done]. }
  split; [|split; [done|]].
  - unfold filtered_data. destruct (Py.iter json_data); simpl; [apply Hf|done].
  - intros chat extra tr. rewrite !process_handles.
    unfold process_body, summarize_with_llm, io_bind, io_lift, io_ret, io_emit.
    rewrite Hagg.
    destruct (aggregated_comments json_data sel') as [[|x l]|]; try done.
    destruct (Py.join Str.nl (x :: l)); [|done].
    by destruct (chat _).
Qed.

End Groups.

Lemma offered_component_has_records_witness :
  ∃ item kept, filtered_data two_records "db" = Ok (item :: kept).
Proof.
  apply (offered_component_has_records two_records ["db"; "ui"] "db").
  - vm_compute. reflexivity.
  - apply list_elem_of_here.
Defined.

Lemma groups_partition_records_witness :
  ∃ groups,
    Forall2 (λ n group, filtered_data two_records n = Ok group) ["db"; "ui"] groups
    ∧ concat groups
      ≡ₚ [record "UI" [comment "line1"]; record "db" [comment "other"];
          record "ui" [comment "line2"]].
Proof.
  apply (groups_partition_records two_records ["db"; "ui"]).
  - vm_compute. reflexivity.
  - reflexivity.
Defined.

Lemma components_order_irrelevant_witness :
  components
    (PyList [record "db" [comment "other"]; record "ui" [comment "line2"];
             record "UI" [comment "line1"]]) = Ok ["db"; "ui"]
  ∧ length ["db"; "ui"] ≤ 3.
Proof.
  apply (components_order_irrelevant
           [record "UI" [comment "line1"]; record "db" [comment "other"];
            record "ui" [comment "line2"]]).
  - vm_compute. reflexivity.
  - etrans; [apply Permutation_swap|].
    apply Permutation_skip, Permutation_swap.
Defined.

Lemma aggregate_after_filter_witness :
  filtered_data
    (PyList [record "UI" [comment "line1"]; record "ui" [comment "line2"]]) "ui"
    = Ok [record "UI" [comment "line1"]; record "ui" [comment "line2"]]
  ∧ aggregated_comments
      (PyList [record "UI" [comment "line1"]; record "ui" [comment "line2"]]) "ui"
    = aggregated_comments two_records "ui"
  ∧ ∀ chat extra tr,
      process_selected_component chat
        (PyList [record "UI" [comment "line1"]; record "ui" [comment "line2"]])
        "ui" extra tr
      = process_selected_component chat two_records "ui" extra tr.
Proof.
  apply (aggregate_after_filter two_records "ui"). reflexivity.
Defined.

Lemma selection_case_insensitive_witness :
  filtered_data two_records "UI" = filtered_data two_records "ui"
  ∧ aggregated_comments two_records "UI" = aggregated_comments two_records "ui"
  ∧ ∀ chat extra tr,
      (process_selected_component chat two_records "UI" extra tr).2
      = (process_selected_component chat two_records "ui" extra tr).2.
Proof.
  apply (selection_case_insensitive two_records "UI" "ui"). reflexivity.
Defined.

(** ** The formatter: bounds, line count and missing keys *)

Section FormatterMore.

Lemma count_char_append c s1 s2 :
  count_char c (s1 +:+ s2) = count_char c s1 + count_char c s2.
Proof.
  induction s1 as [|d s1 IH]; [done|].
  rewrite append_cons. simpl. rewrite IH. lia.
Qed.

Lemma count_char_absent c s : Str.mem c s = false → count_char c s = 0.
Proof.
  induction s as [|d s IH]; simpl; [done|].
  intros [-> Hs]%orb_false_iff. by rewrite IH.
Qed.

Lemma of_uint_no_newline (d : Decimal.uint) :
  Str.mem Str.nl_char (NilEmpty.string_of_uint d) = false.
Proof. induction d; simpl; done. Qed.

Lemma numbered_line_no_newline i t :
  Str.mem Str.nl_char (numbered_line i t) = false.
Proof.
  unfold numbered_line, Str.of_nat.
  by rewrite !mem_append, of_uint_no_newline, display_text_no_newline.
Qed.

Lemma count_join_lines (lines : list string) :
  Forall (λ line, Str.mem Str.nl_char line = false) lines →
  count_char Str.nl_char (Str.join Str.nl lines) = pred (length lines).
Proof.
  induction 1 as [|line lines Hline Hlines IH]; [done|].
  destruct lines as [|line' lines]; simpl.
  - by apply count_char_absent.
  - change (count_char Str.nl_char
              (line +:+ Str.nl +:+ Str.join Str.nl (line' :: lines))
            = S (length lines)).
    rewrite !count_char_append, IH, (count_char_absent _ _ Hline). simpl. lia.
Qed.

Lemma display_text_length t :
  String.length (display_text t) = Nat.min (String.length t) 100.
Proof.
  unfold display_text.
  pose proof (replace_length Str.nl_char Str.space_char t) as Hlen.
  destruct (Nat.ltb_spec 100 (String.length (Str.replace Str.nl_char Str.space_char t))).
  - rewrite append_length, prefix_length; simpl; lia.
  - lia.
Qed.

(** X11. Whatever its length, a well-formed comment takes one line: the
    count, a dot, a space, and a text of [min (len, 100)] characters without
    any newline. *)
Theorem format_line_bounded (i : nat) (c : pyval) (t : string) :
  is_comment c t →
  ∃ text, format_line i c = Ok (Str.of_nat i +:+ ". " +:+ text)
    ∧ String.length text = Nat.min (String.length t) 100
    ∧ Str.mem Str.nl_char text = false.
Proof.
  intros Hc. exists (display_text t).
  rewrite (format_line_comment _ _ _ Hc).
  split; [done|]. split; [apply display_text_length|apply display_text_no_newline].
Qed.

(** X12. The formatted string has as many lines as there are comments:
    for [n] well-formed comments it holds [n - 1] newline characters,
    however many newlines the comment texts held. *)
Theorem format_comments_line_count (cs : list pyval) (ts : list string) :
  Forall2 is_comment cs ts →
  ∃ out, format_comments (PyList cs) = Ok out
    ∧ count_char Str.nl_char out = pred (length cs).
Proof.
  intros Hcs. unfold format_comments. simpl.
  rewrite (format_loop_lines _ _ _ _ Hcs). simpl.
  eexists; split; [done|].
  rewrite count_join_lines.
  - by rewrite length_imap, (Forall2_length _ _ _ Hcs).
  - apply Forall_forall. intros line (k & t & -> & _)%elem_of_lookup_imap.
    apply numbered_line_no_newline.
Qed.

Lemma format_loop_missing_key pre ts d post i acc :
  Forall2 is_comment pre ts → Py.lookup "comment" d = None →
  format_loop i (pre ++ PyDict d :: post) acc = Raise (KeyError "comment").
Proof.
  intros Hpre Hd. revert i acc.
  induction Hpre as [|c t pre ts Hc _ IH]; intros i acc; simpl.
  - unfold format_line. simpl. by rewrite Hd.
  - rewrite (format_line_comment _ _ _ Hc). simpl. apply IH.
Qed.

Lemma append_comments_app pre ts rest acc :
  Forall2 is_comment pre ts →
  append_comments (pre ++ rest) acc = append_comments rest (acc ++ (PyStr <$> ts)).
Proof.
  intros Hpre. revert acc.
  induction Hpre as [|c t pre ts (d & -> & Hd) _ IH]; intros acc; simpl.
  - by rewrite app_nil_r.
  - rewrite Hd. simpl. rewrite IH. by rewrite <- app_assoc.
Qed.

(** X13. A comment entry without the key [comment] is treated in two
    ways: the formatter of the table fails on it with [KeyError], at the
    first such entry, while the loop of the aggregator takes it as an empty
    text and goes on. *)
Theorem missing_comment_key (pre post : list pyval) (ts : list string)
    (d : dict) (acc : list pyval) :
  Forall2 is_comment pre ts → Py.lookup "comment" d = None →
  format_comments (PyList (pre ++ PyDict d :: post)) = Raise (KeyError "comment")
  ∧ append_comments (pre ++ PyDict d :: post) acc
    = append_comments post (acc ++ (PyStr <$> ts) ++ [PyStr ""]).
Proof.
  intros Hpre Hd. split.
  - unfold format_comments. simpl.
    by rewrite (format_loop_missing_key _ _ _ _ _ _ Hpre Hd).
  - rewrite (append_comments_app _ _ _ _ Hpre). simpl. rewrite Hd. simpl.
    by rewrite <- app_assoc.
Qed.

End FormatterMore.

Lemma format_line_bounded_witness :
  ∃ text, format_line 3 (comment digits150) = Ok (Str.of_nat 3 +:+ ". " +:+ text)
    ∧ String.length text = Nat.min (String.length digits150) 100
    ∧ Str.mem Str.nl_char text = false.
Proof.
  apply (format_line_bounded 3 (comment digits150) digits150).
  eexists; split; reflexivity.
Defined.

Lemma format_comments_line_count_witness :
  ∃ out,
    format_comments
      (PyList [comment ("x" +:+ Str.nl +:+ "y"); comment "b"; comment digits150])
      = Ok out
    ∧ count_char Str.nl_char out = 2.
Proof.
  apply (format_comments_line_count
           [comment ("x" +:+ Str.nl +:+ "y"); comment "b"; comment digits150]
           ["x" +:+ Str.nl +:+ "y"; "b"; digits150]).
  repeat constructor; eexists; split; reflexivity.
Defined.

Lemma missing_comment_key_witness :
  format_comments (PyList [comment "a"; PyDict [("text", PyStr "x")]; comment "b"])
    = Raise (KeyError "comment")
  ∧ append_comments [comment "a"; PyDict [("text", PyStr "x")]; comment "b"] []
    = append_comments [comment "b"] ([] ++ [PyStr "a"] ++ [PyStr ""]).
Proof.
  apply (missing_comment_key [comment "a"] [comment "b"] ["a"]
           [("text", PyStr "x")] []).
  - repeat constructor; eexists; split; reflexivity.
  - reflexivity.
Defined.

(** ** The table *)

Section Table.

Implicit Types (d : dict) (f : string).

Lemma normalize_total f d : ∃ v, normalize_field_name f d = Ok v.
Proof.
  destruct (Py.lookup f d) as [v|] eqn:Hv.
  - exists v. by apply normalize_exact.
  - rewrite (normalize_miss _ _ Hv), scan_keys_find.
    destruct (List.find (ci_match f) (Py.keys d)) as [key|] eqn:Hfind; [|by eexists].
    apply find_some in Hfind as [Hk _]. apply list_elem_of_In in Hk.
    destruct (key_lookup_Some _ _ Hk) as [v' Hv'].
    exists v'. simpl. by rewrite Hv'.
Qed.

Lemma normalize_absent f d :
  (∀ key, key ∈ Py.keys d → Str.lower key ≠ Str.lower f) →
  normalize_field_name f d = Ok (PyStr "N/A").
Proof.
  intros Hno.
  destruct (Py.lookup f d) as [v|] eqn:Hv.
  - apply lookup_Some_key in Hv. by destruct (Hno f Hv).
  - rewrite (normalize_miss _ _ Hv), scan_keys_find.
    destruct (List.find (ci_match f) (Py.keys d)) as [key|] eqn:Hfind; [|done].
    apply find_some in Hfind as [Hk Hm]. apply list_elem_of_In in Hk.
    apply String.eqb_eq in Hm. by destruct (Hno key Hk).
Qed.

(** X14. The component the table shows is the one the filter read,
    provided no second key of the record spells [component] in another
    case. *)
Theorem table_component_is_filtered d c :
  component_of (PyDict d) = Some c → ci_unique "component" d →
  normalize_field_name "component" d = Ok (PyStr c).
Proof.
  intros Hc Huniq.
  assert (Py.lookup "Component" d = Some (PyStr c)) as Hl.
  { simpl in Hc. destruct (Py.lookup "Component" d) as [[]|]; naive_solver. }
  rewrite <- (normalize_exact _ _ _ Hl).
  symmetry. by apply normalize_lower.
Qed.

Lemma description_cell_string d s :
  normalize_field_name "description" d = Ok (PyStr s) →
  description_cell d =
    Ok (PyStr (if (100 <? String.length s)%nat
               then Str.prefix 100 s +:+ "..." else s)).
Proof.
  intros Hs. unfold description_cell. rewrite Hs. simpl.
  by destruct (100 <? String.length s)%nat.
Qed.

(** X15. The [Description] cell. A description of at most 100 characters
    is shown whole; a longer one is cut to its first 100 characters followed
    by [...], 103 characters in all (three more than a comment gets); a
    record without any description key shows ["N/A"]; and a description that
    is a number, a boolean or [null] makes the row fail with [TypeError]. *)
Theorem description_cell_cases d :
  (∀ s, Py.lookup "description" d = Some (PyStr s) →
     String.length s ≤ 100 → description_cell d = Ok (PyStr s))
  ∧ (∀ s, Py.lookup "description" d = Some (PyStr s) →
       100 < String.length s →
       description_cell d = Ok (PyStr (Str.prefix 100 s +:+ "..."))
       ∧ String.length (Str.prefix 100 s +:+ "...") = 103)
  ∧ ((∀ key, key ∈ Py.keys d → Str.lower key ≠ "description") →
       description_cell d = Ok (PyStr "N/A"))
  ∧ (∀ v, Py.lookup "description" d = Some v →
       match v with
       | PyNone | PyBool _ | PyInt _ | PyFloat _ => True
       | _ => False
       end →
       description_cell d = Raise TypeError).
Proof.
  split; [|split; [|split]].
  - intros s Hs Hlen.
    rewrite (description_cell_string _ _ (normalize_exact _ _ _ Hs)).
    apply Nat.ltb_ge in Hlen. by rewrite Hlen.
  - intros s Hs Hlen.
    rewrite (description_cell_string _ _ (normalize_exact _ _ _ Hs)).
    apply Nat.ltb_lt in Hlen as Hlt. rewrite Hlt. split; [done|].
    rewrite append_length, prefix_length; [done|lia].
  - intros Hno.
    by rewrite (description_cell_string _ _ (normalize_absent "description" _ Hno)).
  - intros v Hv Hkind. unfold description_cell.
    rewrite (normalize_exact _ _ _ Hv). simpl. by destruct v.
Qed.

Lemma table_row_displayable d cs ts text :
  Py.lookup "Comment" d = Some (PyList cs) → Forall2 is_comment cs ts →
  normalize_field_name "description" d = Ok (PyStr text) →
  ∃ jira_id component summary description created_on updated_on comments,
    table_row d =
      Ok (PyDict [("JIRA ID", jira_id); ("Component", component);
                  ("Summary", summary); ("Description", PyStr description);
                  ("Created On", created_on); ("Updated On", updated_on);
                  ("Comments", PyStr comments)])
    ∧ normalize_field_name "component" d = Ok component
    ∧ format_comments (PyList cs) = Ok comments
    ∧ String.length description ≤ 103.
Proof.
  intros Hcm Hcs Htext. unfold table_row.
  destruct (normalize_total "createdon" d) as [created_on ->].
  destruct (normalize_total "updatedon" d) as [updated_on ->].
  destruct (normalize_total "jiraid" d) as [jira_id ->].
  destruct (normalize_total "component" d) as [component ->].
  destruct (normalize_total "summary" d) as [summary ->].
  simpl. rewrite Hcm. simpl.
  unfold format_comments. simpl. rewrite (format_loop_lines _ _ _ _ Hcs). simpl.
  rewrite (description_cell_string _ _ Htext). simpl.
  eexists _, _, _, _, _, _, _. split; [done|]. split; [done|]. split; [done|].
  destruct (Nat.ltb_spec 100 (String.length text)).
  - rewrite append_length, prefix_length; simpl; lia.
  - lia.
Qed.

Lemma table_loop_rows filtered acc :
  Forall displayable filtered →
  ∃ rows, table_loop filtered acc = Ok (acc ++ rows)
    ∧ Forall2 (λ item row, ∃ d cells, item = PyDict d
                 ∧ table_row d = Ok row ∧ row = PyDict cells
                 ∧ cells.*1 = table_columns) filtered rows.
Proof.
  intros Hall. revert acc.
  induction Hall as [|item filtered (d & cs & ts & -> & Hcm & Hcs & text & Htext) _ IH];
    intros acc; simpl.
  - exists []. by rewrite app_nil_r.
  - destruct (table_row_displayable _ _ _ _ Hcm Hcs Htext)
      as (c1 & c2 & c3 & c4 & c5 & c6 & c7 & Hrow & _).
    rewrite Hrow. simpl.
    destruct (IH (acc ++ [PyDict [("JIRA ID", c1); ("Component", c2);
                                  ("Summary", c3); ("Description", PyStr c4);
                                  ("Created On", c5); ("Updated On", c6);
                                  ("Comments", PyStr c7)]]))
      as (rows & -> & Hrows).
    eexists (_ :: rows). rewrite <- app_assoc. split; [done|].
    constructor; [|done]. by eexists _, _.
Qed.

(** X16. For records the table can show (a list of well-formed comments,
    a string or no description), the table has one row per record, in
    order, each with the seven columns in their fixed order. *)
Theorem table_data_rows (filtered : list pyval) :
  Forall displayable filtered →
  ∃ rows, table_data filtered = Ok rows
    ∧ length rows = length filtered
    ∧ Forall2 (λ item row, ∃ d cells, item = PyDict d
                 ∧ table_row d = Ok row ∧ row = PyDict cells
                 ∧ cells.*1 = table_columns) filtered rows.
Proof.
  intros Hall. destruct (table_loop_rows filtered [] Hall) as (rows & Hrows & Hshape).
  exists rows. split; [done|]. split; [|done].
  symmetry. by eapply Forall2_length.
Qed.

(** X17. A record without the key [Comment] is read in two ways: its row
    of the table fails with [KeyError], so no table is shown at all, while
    the aggregator takes it as a record without comments and goes on. *)
Theorem missing_comment_list d c sel acc :
  Py.lookup "Comment" d = None →
  Py.lookup "Component" d = Some (PyStr c) →
  table_row d = Raise (KeyError "Comment")
  ∧ (∀ rest table, table_loop (PyDict d :: rest) table = Raise (KeyError "Comment"))
  ∧ aggregate_item (PyDict d) sel acc = Ok acc.
Proof.
  intros Hcm Hc.
  assert (table_row d = Raise (KeyError "Comment")) as Hrow.
  { unfold table_row.
    destruct (normalize_total "createdon" d) as [created_on ->].
    destruct (normalize_total "updatedon" d) as [updated_on ->].
    simpl. by rewrite Hcm. }
  split; [done|]. split.
  - intros rest table. simpl. by rewrite Hrow.
  - unfold aggregate_item. simpl. rewrite Hc, Hcm. simpl.
    by destruct (String.eqb _ _).
Qed.

End Table.

Lemma table_component_is_filtered_witness :
  normalize_field_name "component" (ticket "UI" "short" []) = Ok (PyStr "UI").
Proof.
  apply (table_component_is_filtered (ticket "UI" "short" []) "UI").
  - reflexivity.
  - intros k1 k2 H1 H2 Hl1 Hl2.
    repeat (apply elem_of_cons in H1 as [->|H1]; try done);
      try (by apply elem_of_nil in H1).
    repeat (apply elem_of_cons in H2 as [->|H2]; try done).
    by apply elem_of_nil in H2.
Defined.

Lemma description_cell_cases_witness :
  description_cell (ticket "UI" "short" []) = Ok (PyStr "short")
  ∧ (description_cell (ticket "UI" digits150 [])
       = Ok (PyStr (Str.prefix 100 digits150 +:+ "..."))
     ∧ String.length (Str.prefix 100 digits150 +:+ "...") = 103)
  ∧ description_cell [("Component", PyStr "UI")] = Ok (PyStr "N/A")
  ∧ description_cell [("description", PyInt 7)] = Raise TypeError.
Proof.
  split; [|split; [|split]].
  - apply (proj1 (description_cell_cases (ticket "UI" "short" [])) "short");
      [reflexivity|vm_compute; lia].
  - apply (proj1 (proj2 (description_cell_cases (ticket "UI" digits150 []))) digits150);
      [reflexivity|vm_compute; lia].
  - apply (proj1 (proj2 (proj2 (description_cell_cases [("Component", PyStr "UI")])))).
    intros key [->|H]%elem_of_cons; [done|by apply elem_of_nil in H].
  - by apply (proj2 (proj2 (proj2 (description_cell_cases [("description", PyInt 7)])))
                (PyInt 7)).
Defined.

Lemma table_data_rows_witness :
  ∃ rows,
    table_data [PyDict (ticket "UI" digits150 [comment "slow"; comment "crash"]);
                PyDict (ticket "ui" "short" [])] = Ok rows
    ∧ length rows = 2
    ∧ Forall2 (λ item row, ∃ d cells, item = PyDict d
                 ∧ table_row d = Ok row ∧ row = PyDict cells
                 ∧ cells.*1 = table_columns)
        [PyDict (ticket "UI" digits150 [comment "slow"; comment "crash"]);
         PyDict (ticket "ui" "short" [])] rows.
Proof.
  apply (table_data_rows
           [PyDict (ticket "UI" digits150 [comment "slow"; comment "crash"]);
            PyDict (ticket "ui" "short" [])]).
  repeat constructor.
  - eexists _, _, ["slow"; "crash"]. repeat split.
    + repeat constructor; eexists; split; reflexivity.
    + by eexists.
  - eexists _, _, []. repeat split; [constructor|by eexists].
Defined.

Lemma missing_comment_list_witness :
  table_row [("Component", PyStr "ui")] = Raise (KeyError "Comment")
  ∧ (∀ rest table,
       table_loop (PyDict [("Component", PyStr "ui")] :: rest) table
       = Raise (KeyError "Comment"))
  ∧ aggregate_item (PyDict [("Component", PyStr "ui")]) "ui" [PyStr "before"]
    = Ok [PyStr "before"].
Proof.
  apply (missing_comment_list [("Component", PyStr "ui")] "ui" "ui" [PyStr "before"]);
    reflexivity.
Defined.

(** ** The labels of the select box *)

Section Labels.

(** Title-casing one character of a lower-cased name without sharp s gives
    one code point, from which the character can be read back. *)
Lemma title_step_inverse :
  ∃ back : bool → N → ascii,
    ∀ (b : bool) (c : ascii),
      Str.lower_char c = c → Ascii.eqb c sharp_s = false →
      ∃ n, (if b then [Builtin.code (Str.lower_char c)] else Builtin.title_char c)
           = [n]
           ∧ back b n = c.
Proof.
  exists (λ (b : bool) (n : N),
    if b then ascii_of_N n
    else if (n =? 924)%N then ascii_of_nat 181
    else if (n =? 376)%N then ascii_of_nat 255
    else if upper_code (N.to_nat n) then ascii_of_N (n + 32)
    else ascii_of_N n).
  intros b c.
  destruct b, c as [[] [] [] [] [] [] [] []]; vm_compute;
    intros Hl Hs; first [discriminate Hl | discriminate Hs | by eexists].
Qed.

Lemma title_from_inj (b : bool) (x y : string) :
  Str.lower x = x → Str.lower y = y →
  Str.mem sharp_s x = false → Str.mem sharp_s y = false →
  Builtin.title_from b x = Builtin.title_from b y → x = y.
Proof.
  destruct title_step_inverse as [back Hback].
  revert b y. induction x as [|c x IH]; intros b [|d y]; simpl; try done.
  - intros _ [= Hd _] _ [Hds _]%orb_false_iff.
    destruct (Hback b d Hd Hds) as (m & -> & _). done.
  - intros [= Hc _] _ [Hcs _]%orb_false_iff _.
    destruct (Hback b c Hc Hcs) as (n & -> & _). done.
  - intros [= Hc Hx] [= Hd Hy] [Hcs Hxs]%orb_false_iff [Hds Hys]%orb_false_iff.
    destruct (Hback b c Hc Hcs) as (n & -> & Hn).
    destruct (Hback b d Hd Hds) as (m & -> & Hm).
    intros [= -> Hrest]. assert (c = d) as -> by congruence.
    f_equal. by apply (IH (Builtin.is_cased d)).
Qed.

(** X18. For component names without the sharp s, no two components the
    index offers share a title-cased label in the select box. (The sharp s
    is left out because title-casing turns it into [Ss], the label of
    [ss].) *)
Theorem labels_unambiguous (json_data : pyval) (names : list string) :
  components json_data = Ok names →
  Forall (λ x, Str.mem sharp_s x = false) names →
  NoDup (Builtin.title <$> names).
Proof.
  intros (items & _ & _ & ->)%components_keys Hplain.
  set (names := merge_sort Str.le _) in *.
  apply NoDup_fmap_2_strong.
  - intros x y Hx Hy Heq. rewrite Forall_forall in Hplain.
    apply (title_from_inj false); auto.
    + apply elem_of_components in Hx as (item & _ & ->). apply component_key_lower.
    + apply elem_of_components in Hy as (item & _ & ->). apply component_key_lower.
  - unfold names. rewrite merge_sort_Permutation. apply NoDup_elements.
Qed.

End Labels.

Lemma labels_unambiguous_witness :
  NoDup (Builtin.title <$> ["auth"; "ui"; ete]).
Proof.
  apply (labels_unambiguous
           (PyList [PyDict [("Component", PyStr "UI")];
                    PyDict [("Component", PyStr Ete)];
                    PyDict [("Component", PyStr "auth")];
                    PyDict [("Component", PyStr ete)];
                    PyDict [("Component", PyStr "ui")]])).
  - vm_compute. reflexivity.
  - repeat constructor.
Defined.

Example title_examples :
  Builtin.title "ui" = Builtin.text "Ui"
  ∧ Builtin.title "user interface" = Builtin.text "User Interface"
  ∧ Builtin.title "db2-core" = Builtin.text "Db2-Core"
  ∧ Builtin.title ete = Builtin.text Ete.
Proof. repeat split; reflexivity. Qed.

(** Why the sharp s is left out: it shares its label with [ss]. *)
Example title_sharp_s :
  Builtin.title (String sharp_s EmptyString) = Builtin.text "Ss"
  ∧ Builtin.title "ss" = Builtin.text "Ss".
Proof. split; reflexivity. Qed.

(** ** One run of the page *)

Section Page.

Variable chat : chat_request → result pyval.

Implicit Types (s : session) (evs : list ui_event) (P : ui_event → Prop).

Lemma shows_only_ret {A} P (a : A) : shows_only P (page_ret a).
Proof. intros evs. exists []. by rewrite app_nil_r. Qed.

Lemma shows_only_lift {A} P (r : result A) : shows_only P (page_lift r).
Proof. intros evs. exists []. by rewrite app_nil_r. Qed.

Lemma shows_only_show P ev : P ev → shows_only P (page_show ev).
Proof. intros Hev evs. exists [ev]. split; [done|]. by constructor. Qed.

Lemma shows_only_bind {A B} P (m : page A) (k : A → page B) :
  shows_only P m → (∀ a, shows_only P (k a)) → shows_only P (page_bind m k).
Proof.
  intros Hm Hk evs. unfold page_bind.
  destruct (Hm evs) as (new & Hnew & HP).
  destruct (m evs) as [[a|e] evs'] eqn:Hrun; simpl in Hnew; subst evs'.
  - destruct (Hk a (evs ++ new)) as (new' & Hnew' & HP').
    exists (new ++ new'). rewrite Hnew', app_assoc. split; [done|].
    by apply Forall_app.
  - by exists new.
Qed.

Lemma shows_only_try {A} P (m : page A) (h : exn → page A) :
  shows_only P m → (∀ e, shows_only P (h e)) → shows_only P (page_try m h).
Proof.
  intros Hm Hh evs. unfold page_try.
  destruct (Hm evs) as (new & Hnew & HP).
  destruct (m evs) as [[a|e] evs'] eqn:Hrun; simpl in Hnew; subst evs'.
  - by exists new.
  - destruct (Hh e (evs ++ new)) as (new' & Hnew' & HP').
    exists (new ++ new'). rewrite Hnew', app_assoc. split; [done|].
    by apply Forall_app.
Qed.

Lemma shows_only_core {A} P (m : io A) :
  Forall (λ ev, P (Core ev)) (m []).2 → shows_only P (page_core m).
Proof.
  intros Hm evs. unfold page_core.
  destruct (m []) as [r tr]. exists (Core <$> tr). split; [done|].
  by apply Forall_fmap.
Qed.

(** What the aggregator returns, for the test [if result:]. *)
Lemma process_result_shape data sel extra :
  ∃ tr, process_selected_component chat data sel extra [] = (Ok PyNone, tr)
  ∨ ∃ tr analysis,
      process_selected_component chat data sel extra []
      = (Ok (PyDict [("Component", PyStr sel); ("Analysis", analysis)]), tr).
Proof.
  rewrite process_handles.
  unfold process_body, summarize_with_llm, io_bind, io_lift, io_ret, io_emit.
  destruct (aggregated_comments data sel) as [[|x l]|e]; try by eexists; left.
  destruct (Py.join Str.nl (x :: l)); [|by eexists; left].
  destruct (chat _); [|by eexists; left].
  exists []. right. by eexists _, _.
Qed.

(** X19. What a press of the button shows. After the spinner come the
    calls the aggregator made; the expander with the analysis follows only
    when the aggregator returned its dict. When it returned [None] nothing
    more is shown: a component without comments gets no message at all. *)
Theorem summarize_button_outcomes s data sel extra evs :
  button s = true →
  (∃ tr,
     process_selected_component chat data sel extra [] = (Ok PyNone, tr)
     ∧ summarize_button chat s data sel extra evs
       = (Ok tt, evs ++ [Button; Spinner] ++ (Core <$> tr)))
  ∨ (∃ tr analysis,
       process_selected_component chat data sel extra []
       = (Ok (PyDict [("Component", PyStr sel); ("Analysis", analysis)]), tr)
       ∧ summarize_button chat s data sel extra evs
         = (Ok tt, evs ++ [Button; Spinner] ++ (Core <$> tr)
                   ++ [Expander (PyStr sel); WriteAnalysis analysis])).
Proof.
  intros Hb. unfold summarize_button, page_bind, page_show, page_core.
  rewrite Hb.
  destruct (process_result_shape data sel extra) as [tr [Hrun|(tr' & a & Hrun)]].
  - left. exists tr. rewrite Hrun. split; [done|]. simpl.
    by rewrite <- !app_assoc.
  - right. exists tr', a. rewrite Hrun. split; [done|]. simpl.
    unfold page_lift, page_ret. simpl. by rewrite <- !app_assoc.
Qed.

Lemma summarize_button_quiet s data sel extra :
  button s = false →
  shows_only (λ ev, ∀ req, ev ≠ Core (ChatCompletion req))
    (summarize_button chat s data sel extra).
Proof.
  intros Hb. unfold summarize_button. rewrite Hb.
  apply shows_only_bind; [by apply shows_only_show|].
  intros _. apply shows_only_ret.
Qed.

(** X20. Without a press of the button no request goes to the summarizer,
    whatever was uploaded and selected: a run only adds to the page, and
    nothing it adds is a chat-completion call. *)
Theorem no_request_without_button s :
  button s = false →
  shows_only (λ ev, ∀ req, ev ≠ Core (ChatCompletion req)) (main chat s).
Proof.
  intros Hb. unfold main.
  do 3 (apply shows_only_bind; [by apply shows_only_show|]; intros _).
  destruct (file_uploader s) as [| |e|json_data].
  - apply shows_only_ret.
  - by apply shows_only_show.
  - apply shows_only_try; [apply shows_only_lift|].
    intros e'. by apply shows_only_show.
  - apply shows_only_try; [|intros e; by apply shows_only_show].
    unfold main_body.
    apply shows_only_bind; [apply shows_only_lift|]. intros names.
    apply shows_only_bind; [by apply shows_only_show|]. intros _.
    apply shows_only_bind; [apply shows_only_lift|]. intros [|item kept].
    + by apply shows_only_show.
    + destruct (selectbox s names) as [sel|]; [|apply shows_only_lift].
      apply shows_only_bind; [by apply shows_only_show|]. intros _.
      apply shows_only_bind; [apply shows_only_lift|]. intros table.
      do 3 (apply shows_only_bind; [by apply shows_only_show|]; intros _).
      by apply summarize_button_quiet.
Qed.

Lemma shows_only_weaken {A} P (Q : ui_event → Prop) (m : page A) :
  (∀ ev, P ev → Q ev) → shows_only P m → shows_only Q m.
Proof.
  intros HPQ Hm evs. destruct (Hm evs) as (new & Hnew & HP).
  exists new. split; [done|]. by eapply Forall_impl.
Qed.

Lemma summarize_button_shows P s data sel extra :
  P Button → P Spinner → (∀ ev, P (Core ev)) →
  (∀ c, P (Expander c)) → (∀ a, P (WriteAnalysis a)) →
  shows_only P (summarize_button chat s data sel extra).
Proof.
  intros HB HS HC HE HW. unfold summarize_button.
  apply shows_only_bind; [by apply shows_only_show|]. intros _.
  destruct (button s); [|apply shows_only_ret].
  apply shows_only_bind; [by apply shows_only_show|]. intros _.
  apply shows_only_bind.
  { apply shows_only_core, Forall_forall. intros ev _. apply HC. }
  intros result. destruct (Builtin.truthy result); [|apply shows_only_ret].
  apply shows_only_bind; [apply shows_only_lift|]. intros c.
  apply shows_only_bind; [by apply shows_only_show|]. intros _.
  apply shows_only_bind; [apply shows_only_lift|]. intros a.
  by apply shows_only_show.
Qed.

Lemma main_body_shows P s json_data :
  (∀ ev, ev ≠ Title → ev ≠ Intro → ev ≠ FileUploader →
         ev ≠ InvalidJsonError → P ev) →
  shows_only P (main_body chat s json_data).
Proof.
  intros HP. unfold main_body.
  apply shows_only_bind; [apply shows_only_lift|]. intros names.
  apply shows_only_bind; [by apply shows_only_show, HP|]. intros _.
  apply shows_only_bind; [apply shows_only_lift|]. intros [|item kept].
  - by apply shows_only_show, HP.
  - destruct (selectbox s names) as [sel|]; [|apply shows_only_lift].
    apply shows_only_bind; [by apply shows_only_show, HP|]. intros _.
    apply shows_only_bind; [apply shows_only_lift|]. intros table.
    do 3 (apply shows_only_bind; [by apply shows_only_show, HP|]; intros _).
    apply summarize_button_shows; intros; by apply HP.
Qed.

(** X21. A run of the page never ends in an exception. Behind the title,
    the introduction and the uploader it shows: nothing when no file was
    given; the invalid-JSON message when [json.load] raised
    [JSONDecodeError]; the general error message with the exception when
    [json.load] raised anything else (a file that is not text, say); and,
    when anything in the rest of the body raises, whatever the body had
    shown by then followed by that same general message. *)
Theorem main_reports_and_returns s evs :
  ∃ shown,
    main chat s evs = (Ok tt, (evs ++ [Title; Intro; FileUploader]) ++ shown)
    ∧ match file_uploader s with
      | NoFile => shown = []
      | InvalidJson => shown = [InvalidJsonError]
      | Unreadable e => shown = [Core (StError "An error occurred: " e)]
      | Parsed json_data =>
          ∀ e evs',
            main_body chat s json_data (evs ++ [Title; Intro; FileUploader])
              = (Raise e, evs') →
            ∃ before,
              evs' = (evs ++ [Title; Intro; FileUploader]) ++ before
              ∧ shown = before ++ [Core (StError "An error occurred: " e)]
      end.
Proof.
  unfold main, page_bind, page_show. simpl.
  rewrite <- !app_assoc. simpl.
  destruct (file_uploader s) as [| |e|json_data].
  - exists []. by rewrite app_nil_r.
  - by exists [InvalidJsonError].
  - unfold page_try, page_lift. by eexists.
  - unfold page_try.
    destruct (main_body_shows (λ _, True) s json_data (λ _ _ _ _ _, I)
                (evs ++ [Title; Intro; FileUploader])) as (new & Hnew & _).
    destruct (main_body chat s json_data (evs ++ [Title; Intro; FileUploader]))
      as [[[]|e] evs'] eqn:Hrun; simpl in Hnew; subst evs'.
    + exists new. split; [done|]. intros e evs' [=].
    + exists (new ++ [Core (StError "An error occurred: " e)]).
      split; [by rewrite app_assoc|].
      intros e' evs' [= <- <-]. by exists new.
Qed.

(** X22. One record without a usable [Component] hides all the others:
    the run stops while the index is built, before the select box, and the
    page shows nothing but the error message. *)
Theorem main_unusable_record s items bad :
  file_uploader s = Parsed (PyList items) →
  bad ∈ items → component_unusable bad →
  ∃ e, main chat s []
       = (Ok tt, [Title; Intro; FileUploader;
                  Core (StError "An error occurred: " e)]).
Proof.
  intros Hfile Hin (d & -> & Hbad).
  destruct (names_filter_agree items "") as [Hall|(e & Hn & _)].
  - rewrite Forall_forall in Hall. destruct (Hall _ Hin) as [c Hc]. congruence.
  - exists e. unfold main, page_bind, page_show, page_try. simpl. rewrite Hfile.
    unfold main_body, page_bind, page_lift, components. simpl. by rewrite Hn.
Qed.

Lemma components_nonempty items item names :
  components (PyList (item :: items)) = Ok names → names ≠ [].
Proof.
  intros (its & Hiter & _ & ->)%components_keys. simpl in Hiter.
  assert (its = item :: items) as -> by congruence.
  intros Hnil.
  assert (component_key item ∈
            merge_sort Str.le
              (elements (list_to_set (component_key <$> item :: items) : gset string)))
    as Hmem.
  { apply elem_of_components. exists item. split; [apply list_elem_of_here|done]. }
  rewrite Hnil in Hmem. by apply elem_of_nil in Hmem.
Qed.

(** X23. With a select box that hands back one of its options, the
    warning [No data found] is shown exactly when the uploaded value holds no
    element at all (an empty list, dict or string): a selection taken from
    the index always finds records. *)
Theorem warning_iff_no_records s json_data :
  file_uploader s = Parsed json_data → picks_an_option s →
  Warning ∈ (main chat s []).2 ↔ Py.iter json_data = Ok [].
Proof.
  intros Hfile Hpick.
  unfold main, page_bind, page_show, page_try. simpl. rewrite Hfile.
  split.
  - intros Hw.
    unfold main_body, page_bind, page_lift, page_show in Hw.
    destruct (components json_data) as [names|e] eqn:Hnames; simpl in Hw.
    2:{ repeat (apply elem_of_cons in Hw as [Hw|Hw]; [done|]).
        by apply elem_of_nil in Hw. }
    pose proof Hnames as (items & Hiter & Hall & _)%components_keys.
    destruct items as [|item items]; [done|]. exfalso.
    assert (∃ l, json_data = PyList l) as [l ->].
    { destruct json_data as [| | | |str|l|d]; simpl in Hiter; try done.
      - destruct str; simplify_eq; try (inversion Hall as [|?? [c Hc]]; done).
      - by eexists.
      - destruct d as [|[k v] d]; simplify_eq;
          try (inversion Hall as [|?? [c Hc]]; done). }
    simpl in Hiter. simplify_eq.
    destruct (Hpick names (components_nonempty _ _ _ Hnames)) as (x & Hx & Hxin).
    rewrite Hx in Hw. simpl in Hw.
    destruct (filter_offered_nonempty _ _ _ Hnames Hxin) as (first & kept & Hf).
    rewrite Hf in Hw.
    assert (∀ evs : list ui_event,
              Forall (λ ev, ev ≠ Warning) evs → Warning ∉ evs) as Hno.
    { intros evs Hevs Hin. rewrite Forall_forall in Hevs. by apply (Hevs _ Hin). }
    destruct (table_data (first :: kept)) as [table|e].
    + destruct (summarize_button_shows (λ ev, ev ≠ Warning) s
                  (PyList (item :: items)) x (text_area s)
                  ltac:(done) ltac:(done) ltac:(done) ltac:(done) ltac:(done)
                  (((([Title; Intro; FileUploader;
                       Selectbox names (Builtin.title <$> names)] ++
                      [Subheader (Builtin.title x)]) ++
                     [Dataframe table]) ++ [Markdown]) ++ [TextArea]))
        as (new & Hnew & Hnw).
      destruct (summarize_button _ _ _ _ _ _) as [[[]|e] evs'];
        simpl in Hnew, Hw; subst evs'; revert Hw; apply Hno;
        repeat (apply Forall_app; split); try done;
        repeat constructor; done.
    + simpl in Hw. revert Hw. apply Hno. repeat constructor; done.
  - intros Hiter.
    unfold main_body, page_bind, page_lift, page_show, components, filter_selected,
      filtered_data.
    rewrite Hiter. simpl.
    destruct (selectbox s _); simpl; set_solver.
Qed.

(** X24. The table of a run. For records the table can show, a selection
    taken from the index and no press of the button, the page is the select
    box with the title-cased labels, the header of the chosen component, the
    table with one row per record of that component (at least one), the
    separator, the text area and the button: no warning and no error. *)
Theorem main_shows_table s items names sel :
  file_uploader s = Parsed (PyList items) →
  Forall displayable items →
  components (PyList items) = Ok names →
  selectbox s names = Some sel → sel ∈ names → button s = false →
  ∃ kept rows,
    filtered_data (PyList items) sel = Ok kept
    ∧ kept ≠ []
    ∧ table_data kept = Ok rows
    ∧ length rows = length kept
    ∧ main chat s []
      = (Ok tt, [Title; Intro; FileUploader;
                 Selectbox names (Builtin.title <$> names);
                 Subheader (Builtin.title sel);
                 Dataframe rows; Markdown; TextArea; Button]).
Proof.
  intros Hfile Hdisp Hnames Hsel Hin Hb.
  destruct (filter_offered_nonempty _ _ _ Hnames Hin) as (first & kept & Hf).
  assert (Forall displayable (first :: kept)) as Hkept.
  { pose proof Hnames as (its & Hiter & Hall & _)%components_keys.
    simpl in Hiter. simplify_eq.
    unfold filtered_data in Hf. simpl in Hf.
    rewrite (filter_items_keys _ _ Hall) in Hf. simplify_eq.
    rewrite Forall_forall in Hdisp |- *. intros item Hitem.
    apply Hdisp. rewrite <- Hf in Hitem.
    apply list_elem_of_In, filter_In in Hitem as [Hitem _].
    by apply list_elem_of_In. }
  destruct (table_loop_rows _ [] Hkept) as (rows & Hrows & Hshape).
  exists (first :: kept), rows.
  split; [done|]. split; [done|]. split; [done|].
  split; [symmetry; by eapply Forall2_length|].
  unfold main, page_bind, page_show, page_try. simpl. rewrite Hfile.
  unfold main_body, page_bind, page_lift, page_show. rewrite Hnames. simpl.
  rewrite Hsel. simpl. rewrite Hf.
  unfold table_data. rewrite Hrows. simpl.
  unfold summarize_button, page_bind, page_show, page_ret. by rewrite Hb.
Qed.

End Page.

Lemma visit_picks data pressed : picks_an_option (visit data pressed).
Proof.
  intros [|x options] Hne; [done|]. exists x. split; [done|apply list_elem_of_here].
Qed.

Lemma summarize_button_outcomes_witness :
  (∃ tr,
     process_selected_component chat_ok tickets "db" "" [] = (Ok PyNone, tr)
     ∧ summarize_button chat_ok (visit tickets true) tickets "db" "" []
       = (Ok tt, [] ++ [Button; Spinner] ++ (Core <$> tr)))
  ∨ (∃ tr analysis,
       process_selected_component chat_ok tickets "db" "" []
       = (Ok (PyDict [("Component", PyStr "db"); ("Analysis", analysis)]), tr)
       ∧ summarize_button chat_ok (visit tickets true) tickets "db" "" []
         = (Ok tt, [] ++ [Button; Spinner] ++ (Core <$> tr)
                   ++ [Expander (PyStr "db"); WriteAnalysis analysis])).
Proof.
  apply (summarize_button_outcomes chat_ok (visit tickets true) tickets "db" "" []).
  reflexivity.
Defined.

(** The silent case: the component [db] has no comment. *)
Example button_on_component_without_comments :
  summarize_button chat_ok (visit tickets true) tickets "db" "" []
  = (Ok tt, [Button; Spinner]).
Proof. reflexivity. Qed.

Lemma no_request_without_button_witness :
  shows_only (λ ev, ∀ req, ev ≠ Core (ChatCompletion req))
    (main chat_ok (visit tickets false)).
Proof.
  apply (no_request_without_button chat_ok (visit tickets false)). reflexivity.
Defined.

Lemma main_unusable_record_witness :
  ∃ e, main chat_ok (visit unlabelled_first false) []
       = (Ok tt, [Title; Intro; FileUploader;
                  Core (StError "An error occurred: " e)]).
Proof.
  apply (main_unusable_record chat_ok (visit unlabelled_first false)
           [PyDict [("Comment", PyList [comment "lost"])];
            record "ui" [comment "slow"]]
           (PyDict [("Comment", PyList [comment "lost"])])).
  - reflexivity.
  - apply list_elem_of_here.
  - eexists. split; reflexivity.
Defined.

Lemma warning_iff_no_records_witness :
  Warning ∈ (main chat_ok (visit (PyList []) false) []).2
  ↔ Py.iter (PyList []) = Ok [].
Proof.
  apply (warning_iff_no_records chat_ok (visit (PyList []) false) (PyList [])).
  - reflexivity.
  - apply visit_picks.
Defined.

Lemma main_shows_table_witness :
  ∃ kept rows,
    filtered_data tickets "db" = Ok kept
    ∧ kept ≠ []
    ∧ table_data kept = Ok rows
    ∧ length rows = length kept
    ∧ main chat_ok (visit tickets false) []
      = (Ok tt, [Title; Intro; FileUploader;
                 Selectbox ["db"; "ui"] (Builtin.title <$> ["db"; "ui"]);
                 Subheader (Builtin.title "db");
                 Dataframe rows; Markdown; TextArea; Button]).
Proof.
  apply (main_shows_table chat_ok (visit tickets false)
           [PyDict (ticket "UI" "short" [comment "slow"]);
            PyDict (ticket "db" "short" []);
            PyDict (ticket "ui" "short" [comment "crash"])] ["db"; "ui"] "db").
  - reflexivity.
  - repeat constructor.
    + eexists _, _, ["slow"]. repeat split;
        [repeat constructor; eexists; split; reflexivity|by eexists].
    + eexists _, _, []. repeat split; [constructor|by eexists].
    + eexists _, _, ["crash"]. repeat split;
        [repeat constructor; eexists; split; reflexivity|by eexists].
  - vm_compute. reflexivity.
  - reflexivity.
  - apply list_elem_of_here.
  - reflexivity.
Defined.

(** The same visit with the button pressed on [ui], which has comments. *)
Example visit_ui_pressed :
  (main chat_ok
     {| file_uploader := Parsed tickets; selectbox := λ _, Some "ui";
        text_area := "be brief"; button := true |} []).2
  = [Title; Intro; FileUploader;
     Selectbox ["db"; "ui"] [Builtin.text "Db"; Builtin.text "Ui"];
     Subheader (Builtin.text "Ui");
     Dataframe
       [PyDict [("JIRA ID", PyStr "J-1"); ("Component", PyStr "UI");
                ("Summary", PyStr "login fails"); ("Description", PyStr "short");
                ("Created On", PyStr "2024-01-01");
                ("Updated On", PyStr "2024-01-02");
                ("Comments", PyStr "1. slow")];
        PyDict [("JIRA ID", PyStr "J-1"); ("Component", PyStr "ui");
                ("Summary", PyStr "login fails"); ("Description", PyStr "short");
                ("Created On", PyStr "2024-01-01");
                ("Updated On", PyStr "2024-01-02");
                ("Comments", PyStr "1. crash")]];
     Markdown; TextArea; Button; Spinner;
     Core (ChatCompletion
             (summarize_request
                ("slow" +:+ Str.nl +:+ "crash" +:+ Str.nl +:+ Str.nl +:+ "be brief")));
     Expander (PyStr "ui"); WriteAnalysis (PyStr "summary")].
Proof. vm_compute. reflexivity. Qed.

(** A file that is not text, and a file that is not JSON. *)
Example unreadable_uploads :
  main chat_ok
    {| file_uploader := Unreadable UnicodeDecodeError; selectbox := head;
       text_area := ""; button := false |} []
  = (Ok tt, [Title; Intro; FileUploader;
             Core (StError "An error occurred: " UnicodeDecodeError)])
  ∧ main chat_ok
      {| file_uploader := InvalidJson; selectbox := head;
         text_area := ""; button := false |} []
    = (Ok tt, [Title; Intro; FileUploader; InvalidJsonError]).
Proof. split; reflexivity. Qed.
